(** * Tube studio simulator: the game-state loop of [src/App.tsx] and the
      score endpoint of [server.ts]

    JavaScript numbers are modelled as exact rationals ([Q]); rounding of
    IEEE doubles, [NaN] and the infinities (hence division by zero) are
    outside the model, and durations are taken positive wherever a quotient
    by them is read.  Where rounding decides an outcome (the tick on which a
    job completes, the floor of a price) the arithmetic concerned is
    replayed in primitive binary64 floats beside the rational definitions,
    and the statements about it are kept to what holds in both.  Values
    produced by [Math.floor] and integer counters are [Z].  The React state cells ([gameState], [activeVideo],
    [notifications], [isViral], [viralTimer]) are the fields of one record
    that every handler and timer callback maps to its successor. *)

From Stdlib Require Import Floats.
From Stdlib Require Import QArith Qround Qpower Qminmax Lqa ZArith Lia.
From stdpp Require Import base option list strings sorting.

Local Open Scope Q_scope.
#[local] Set Warnings "-inexact-float,-register-all".

(** ** Data model ([types.ts]) *)

Inductive UpgradeType := type_views | type_money | type_subscribers.

Definition UpgradeType_eqb (a b : UpgradeType) : bool :=
  match a, b with
  | type_views, type_views
  | type_money, type_money
  | type_subscribers, type_subscribers => true
  | _, _ => false
  end.

Record Upgrade := mkUpgrade {
  upgrade_id : string;
  upgrade_name : string;
  description : string;
  baseCost : Q;
  multiplier : Q;
  type : UpgradeType;
  value : Q;
  level : Z;
  icon : string
}.

Record ContentType := mkContentType {
  content_id : string;
  content_name : string;
  baseViews : Q;
  baseMoney : Q;
  duration : Q;
  unlockedAtSubs : Q
}.

Record GameState := mkGameState {
  views : Q;
  subscribers : Q;
  money : Q;
  totalViews : Q;
  totalMoney : Q;
  upgrades : list Upgrade;
  unlockedContentTypes : list string;
  lastSaved : Z
}.

(** The job held in the [activeVideo] cell; [None] is JavaScript's [null]. *)
Record ActiveVideo := mkActiveVideo {
  video_id : string;
  progress : Q;
  startTime : Z
}.

(** The two template literals passed to [addNotification], with the values
    they interpolate. *)
Inductive NotificationText :=
| ViralAlert
| VideoPublished (viral : bool) (floorViews : Z).

Record Notification := mkNotification {
  notification_id : nat;
  text : NotificationText
}.

(** How a JavaScript call ends: with a value, or with a thrown [TypeError]
    (the only exception the modelled handlers can raise themselves). *)
Inductive completion (A : Type) :=
| Returns (a : A)
| ThrowsTypeError.
Arguments Returns {A} a.
Arguments ThrowsTypeError {A}.

(** ** Upgrade arithmetic *)

(** [{ ...upgrade, level: upgrade.level + 1 }] *)
Definition levelUp (u : Upgrade) : Upgrade :=
  mkUpgrade (upgrade_id u) (upgrade_name u) (description u) (baseCost u)
    (multiplier u) (type u) (value u) (level u + 1)%Z (icon u).


(** [Math.floor(upgrade.baseCost * Math.pow(upgrade.multiplier, upgrade.level))] *)
Definition upgradeCost (u : Upgrade) : Z :=
  Qfloor (baseCost u * multiplier u ^ level u).


(** [upgrades.filter(u => u.type === t).reduce((acc, u) => acc + u.value * u.level, init)] *)
Definition sumOfType (t : UpgradeType) (init : Q) (us : list Upgrade) : Q :=
  fold_left (fun acc u => acc + value u * inject_Z (level u))
    (List.filter (fun u => UpgradeType_eqb (type u) t) us) init.

Definition getPassiveViews (g : GameState) : Q := sumOfType type_views 0 (upgrades g).
Definition getPassiveSubs (g : GameState) : Q := sumOfType type_subscribers 0 (upgrades g).
Definition getMoneyMultiplier (g : GameState) : Q := sumOfType type_money 1 (upgrades g).

(** ** [buyUpgrade]: the updater passed to [setGameState] *)

Definition setMoneyUpgrades (g : GameState) (m : Q) (us : list Upgrade) : GameState :=
  mkGameState (views g) (subscribers g) m (totalViews g) (totalMoney g)
    us (unlockedContentTypes g) (lastSaved g).

(** [findIndex] yields the first matching position; when nothing matches it
    yields -1, [prev.upgrades[-1]] is [undefined], and reading [.baseCost]
    from it throws. *)
Definition buyUpgrade (upgradeId : string) (prev : GameState) : completion GameState :=
  match list_find (fun u => upgrade_id u = upgradeId) (upgrades prev) with
  | None => ThrowsTypeError
  | Some (upgradeIndex, upgrade) =>
      let cost := upgradeCost upgrade in
      if Qle_bool (inject_Z cost) (money prev) then
        Returns (setMoneyUpgrades prev (money prev - inject_Z cost)
                   (<[upgradeIndex := levelUp upgrade]> (upgrades prev)))
      else Returns prev
  end.

(** ** The session aggregate *)

Record Studio := mkStudio {
  gameState : GameState;
  activeVideo : option ActiveVideo;
  notifications : list Notification;
  nextNotificationId : nat;
  isViral : bool;
  viralTimer : Z
}.

Definition setGameState (st : Studio) (g : GameState) : Studio :=
  mkStudio g (activeVideo st) (notifications st) (nextNotificationId st)
    (isViral st) (viralTimer st).

Definition setActiveVideo (st : Studio) (v : option ActiveVideo) : Studio :=
  mkStudio (gameState st) v (notifications st) (nextNotificationId st)
    (isViral st) (viralTimer st).

Definition setViral (st : Studio) (b : bool) (t : Z) : Studio :=
  mkStudio (gameState st) (activeVideo st) (notifications st)
    (nextNotificationId st) b t.

(** [addNotification]: take the next id, append; the removal it schedules
    for 3000 ms later is [expireNotification]. *)
Definition addNotification (txt : NotificationText) (st : Studio) : Studio :=
  let id := nextNotificationId st in
  mkStudio (gameState st) (activeVideo st)
    (notifications st ++ [mkNotification id txt]) (S id)
    (isViral st) (viralTimer st).

Definition expireNotification (id : nat) (st : Studio) : Studio :=
  mkStudio (gameState st) (activeVideo st)
    (List.filter (fun n => negb (Nat.eqb (notification_id n) id)) (notifications st))
    (nextNotificationId st) (isViral st) (viralTimer st).

(** ** Passive generation loop (every 100 ms) *)

Definition passiveTick (st : Studio) : Studio :=
  let prev := gameState st in
  let passiveViews := getPassiveViews prev / 10 in
  let passiveSubs := getPassiveSubs prev / 10 in
  setGameState st
    (mkGameState (views prev + passiveViews) (subscribers prev + passiveSubs)
       (money prev) (totalViews prev + passiveViews) (totalMoney prev)
       (upgrades prev) (unlockedContentTypes prev) (lastSaved prev)).

(** ** Viral event *)

(** The effect on [isViral, viralTimer]: with time left it only arms the
    one-second timeout; at zero it clears the flag. *)
Definition viralEffect (st : Studio) : Studio :=
  if isViral st && (0 <? viralTimer st)%Z then st
  else if (viralTimer st =? 0)%Z then setViral st false (viralTimer st)
  else st.

(** The 10 s check, given the value drawn from [Math.random()]. *)
Definition checkViral (rand : Q) (st : Studio) : Studio :=
  if negb (isViral st) && negb (Qle_bool 0.01 rand) then
    viralEffect (addNotification ViralAlert (setViral st true 15))
  else st.

(** The armed timeout firing: [setViralTimer(v => v - 1)], then the effect. *)
Definition viralSecond (st : Studio) : Studio :=
  if isViral st && (0 <? viralTimer st)%Z then
    viralEffect (setViral st (isViral st) (viralTimer st - 1))
  else st.

(** ** Production *)

Definition creditProduction (g : GameState) (viewsGained moneyGained subsGained : Q)
  : GameState :=
  mkGameState (views g + viewsGained) (subscribers g + subsGained)
    (money g + moneyGained) (totalViews g + viewsGained)
    (totalMoney g + moneyGained) (upgrades g) (unlockedContentTypes g)
    (lastSaved g).

Definition withProgress (v : ActiveVideo) (p : Q) : ActiveVideo :=
  mkActiveVideo (video_id v) p (startTime v).

Definition boostOf (viral : bool) : Q := if viral then 3 else 1.

Definition viewsGainedOf (ct : ContentType) (g : GameState) (viral : bool) : Q :=
  baseViews ct * (1 + getPassiveViews g * 0.1) * boostOf viral.

Definition moneyGainedOf (ct : ContentType) (g : GameState) (viral : bool) : Q :=
  baseMoney ct * getMoneyMultiplier g * boostOf viral.

Definition subsGainedOf (ct : ContentType) (g : GameState) (viral : bool) : Q :=
  Qmax 0 ((viewsGainedOf ct g viral * 0.05) * (1 + getPassiveSubs g * 0.1)).

(** ** The progress arithmetic in binary64 *)

(** The definitions above compute in exact rationals.  These replay, in
    IEEE doubles as JavaScript has them, the one chain of additions whose
    rounding decides which tick sees a job complete: the increment of the
    production tick and the test that precedes it. *)

(** [Math.min] on two numbers. *)
Definition min64 (a b : float) : float := if PrimFloat.ltb b a then b else a.

(** [Math.min(prev.progress + (0.1 / duration) * 100, 100)] *)
Definition tickDouble (duration progress : float) : float :=
  min64 (PrimFloat.add progress
           (PrimFloat.mul (PrimFloat.div 0.1%float duration) 100%float))
        100%float.

(** [baseCost * Math.pow(multiplier, 1)], the power at exponent 1 being
    the multiplier itself: the product [Math.floor] reads at level 1. *)
Definition levelOneProductDouble (baseCost multiplier : float) : float :=
  PrimFloat.mul baseCost multiplier.

(** Progress after [n] ticks from 0. *)
Definition progressAfterDouble (n : nat) (duration : float) : float :=
  Nat.iter n (tickDouble duration) 0%float.

(** [prev.progress >= 100] *)
Definition seesCompletion (progress : float) : bool := PrimFloat.leb 100%float progress.

(** ** Loading the saved game: the initializer of the [gameState] cell *)

Section Loader.

(** [JSON.parse] belongs to the platform: [None] stands for the
    [SyntaxError] it throws on text that is not JSON. *)
Variable JSONValue : Type.
Variable JSON_parse : string -> option JSONValue.
Variable INITIAL_UPGRADES : list Upgrade.

(** What the cell starts with: whatever [JSON.parse] produced, taken as it
    is, or the literal built in the initializer. *)
Inductive InitialState :=
| Restored (v : JSONValue)
| Fresh (g : GameState).

Definition freshGameState (now : Z) : GameState :=
  mkGameState 0 0 0 0 0 INITIAL_UPGRADES ["vlog"%string] now.

(** [saved] is the result of [localStorage.getItem]: [None] for [null].
    The empty string is falsy, so it skips the [try] as [null] does. *)
Definition initGameState (saved : option string) (now : Z) : InitialState :=
  match saved with
  | None => Fresh (freshGameState now)
  | Some s =>
      if String.eqb s "" then Fresh (freshGameState now)
      else match JSON_parse s with
           | Some v => Restored v
           | None => Fresh (freshGameState now)
           end
  end.

End Loader.
Arguments Restored {JSONValue} v.
Arguments Fresh {JSONValue} g.

(** Values [JSON.parse] can produce. *)
Inductive JSON :=
| JNull
| JBoolean (b : bool)
| JNumber (q : Q)
| JString (s : string)
| JArray (items : list JSON)
| JObject (members : list (string * JSON)).

(** Reading [.upgrades] from a restored value: [null] has no properties and
    the read throws; an object yields its member or [undefined] ([None]);
    every other value yields [undefined]. *)
Definition readUpgrades (v : JSON) : completion (option JSON) :=
  match v with
  | JNull => ThrowsTypeError
  | JObject members =>
      Returns (snd <$> List.find (fun m => String.eqb (fst m) "upgrades") members)
  | JBoolean _ | JNumber _ | JString _ | JArray _ => Returns None
  end.

(** The first render after the initializer: the dependency arrays of the
    three rate callbacks read [gameState.upgrades]. *)
Definition firstRender (s : InitialState JSON) : completion unit :=
  match s with
  | Fresh _ => Returns tt
  | Restored v =>
      match readUpgrades v with
      | Returns _ => Returns tt
      | ThrowsTypeError => ThrowsTypeError
      end
  end.

(** ** The score endpoint ([server.ts], table [users] of [server/db.ts]) *)

Module Server.

(** A row of [users].  The request fields are the numbers the client
    sends ([user.id], [gameState.subscribers], [gameState.views]). *)
Record User := mkUser {
  id : Z;
  username : string;
  password : string;
  subscribers : Q;
  views : Q;
  created_at : Z
}.

Record ScoreBody := mkScoreBody {
  body_userId : Q;
  body_subscribers : Q;
  body_views : Q
}.

Inductive Payload :=
| Success (success : bool)
| Error (error : string).

Record Response := mkResponse {
  status : nat;
  payload : Payload
}.

(** [UPDATE users SET subscribers = ?, views = ? WHERE id = ?] *)
Definition updateScore (subs vws userId : Q) (db : list User) : list User :=
  List.map (fun u =>
    if Qeq_bool (inject_Z (id u)) userId
    then mkUser (id u) (username u) (password u) subs vws (created_at u)
    else u) db.


(** The handler of [POST /api/score/update]: run the statement, then
    [res.json({ success: true })] with the default status. *)
Definition scoreUpdate (body : ScoreBody) (db : list User) : list User * Response :=
  let db' := updateScore (body_subscribers body) (body_views body) (body_userId body) db in
  (db', mkResponse 200 (Success true)).

End Server.

(** ** The score endpoint as the client reaches it *)

Module ScoreRequest.






End ScoreRequest.

(** ** The account endpoints ([server.ts]) *)

Module Accounts.

Inductive AuthPayload :=
| Account (id : Z) (username : string) (subscribers : Q)
| Failure (error : string).

Record AuthResponse := mkAuthResponse {
  auth_status : nat;
  auth_payload : AuthPayload
}.

(** The rowid an [AUTOINCREMENT] key gives the next row: one more than the
    largest ever issued.  No statement of the server deletes rows, so that
    is the largest one present (0 for the empty table). *)
Definition nextRowid (db : list Server.User) : Z :=
  1 + foldr Z.max 0%Z (Server.id <$> db).

Definition usernameTaken (name : string) (db : list Server.User) : bool :=
  existsb (fun r => String.eqb (Server.username r) name) db.

(** [POST /api/auth/register].  A field that is [null] or absent ([None])
    makes the statement throw an error whose code is not
    [SQLITE_CONSTRAINT_UNIQUE]; a taken username makes it throw that one.
    [now] is the value of [CURRENT_TIMESTAMP]. *)
Definition register (username password : option string) (now : Z)
    (db : list Server.User) : list Server.User * AuthResponse :=
  match username, password with
  | Some name, Some pw =>
      if usernameTaken name db then
        (db, mkAuthResponse 400 (Failure "Username already taken"))
      else
        let rowid := nextRowid db in
        (db ++ [Server.mkUser rowid name pw 0 0 now],
         mkAuthResponse 200 (Account rowid name 0))
  | _, _ => (db, mkAuthResponse 500 (Failure "Internal server error"))
  end.

(** [POST /api/auth/login] with text fields: [stmt.get] yields the first
    matching row or [undefined]. *)
Definition login (username password : string) (db : list Server.User) : AuthResponse :=
  match List.find (fun r => String.eqb (Server.username r) username
                            && String.eqb (Server.password r) password) db with
  | Some r =>
      mkAuthResponse 200
        (Account (Server.id r) (Server.username r) (Server.subscribers r))
  | None => mkAuthResponse 401 (Failure "Invalid credentials")
  end.

(** [u] comes no later than [v] under [ORDER BY subscribers DESC]. *)
Definition moreSubs (u v : Server.User) : Prop :=
  Server.subscribers v <= Server.subscribers u.

#[global] Instance moreSubs_dec : RelDecision moreSubs.
Proof.
  intros u v. unfold moreSubs.
  destruct (Qlt_le_dec (Server.subscribers u) (Server.subscribers v)) as [Hlt|Hle].
  - right. apply Qlt_not_le, Hlt.
  - left. exact Hle.
Defined.

(** [GET /api/leaderboard]: [SELECT username, subscribers ... ORDER BY
    subscribers DESC LIMIT 10].  SQL leaves the order of rows with equal
    subscribers open; the sort used here fixes one such order. *)
Definition leaderboard (db : list Server.User) : list (string * Q) :=
  (fun r => (Server.username r, Server.subscribers r))
    <$> take 10 (merge_sort moreSubs db).

End Accounts.

(** ** Sample data for the worked scenarios *)

Definition camera : Upgrade :=
  mkUpgrade "camera" "Camera" "sharper picture" 10 1.15 type_views 1 0 "Camera".


Definition vlog : ContentType := mkContentType "vlog" "Vlog" 100 5 60 0.

Definition podcast : ContentType := mkContentType "podcast" "Podcast" 500 20 120 100.

Definition newGame (us : list Upgrade) : GameState := freshGameState us 0.

Definition newStudio (us : list Upgrade) : Studio :=
  mkStudio (newGame us) None [] 0 false 0.

Definition withMoney (g : GameState) (m : Q) : GameState :=
  setMoneyUpgrades g m (upgrades g).

(** Two upgrades that differ at most in their level. *)
Definition sameButLevel (u u' : Upgrade) : Prop :=
  upgrade_id u' = upgrade_id u /\ upgrade_name u' = upgrade_name u /\
  description u' = description u /\ baseCost u' = baseCost u /\
  multiplier u' = multiplier u /\ type u' = type u /\ value u' = value u /\
  icon u' = icon u.

(** Two ledgers that differ at most in [money] and [upgrades]. *)
Definition sameButMoneyUpgrades (g g' : GameState) : Prop :=
  views g' = views g /\ subscribers g' = subscribers g /\
  totalViews g' = totalViews g /\ totalMoney g' = totalMoney g /\
  unlockedContentTypes g' = unlockedContentTypes g /\ lastSaved g' = lastSaved g.

(** What a click preserves: the job stays, under 100, on the same content;
    ledger, notifications and viral state are not touched. *)
Definition editedFrom (st st' : Studio) (job : ActiveVideo) : Prop :=
  exists job', activeVideo st' = Some job' /\ progress job' < 100 /\
    video_id job' = video_id job /\ startTime job' = startTime job /\
    gameState st' = gameState st /\ notifications st' = notifications st /\
    nextNotificationId st' = nextNotificationId st /\
    isViral st' = isViral st /\ viralTimer st' = viralTimer st.

(** A session whose vlog job has reached 100 and awaits the next tick. *)
Definition finishedStudio : Studio :=
  mkStudio (newGame [camera]) (Some (mkActiveVideo "vlog" 100 0)) [] 0 false 0.

(** A parser that agrees with [JSON.parse] on the texts used in the
    examples: it reads the three literal names and rejects the rest. *)
Definition parseLiterals (s : string) : option JSON :=
  if String.eqb s "null" then Some JNull
  else if String.eqb s "true" then Some (JBoolean true)
  else if String.eqb s "false" then Some (JBoolean false)
  else None.

Definition sampleUsers : list Server.User :=
  [Server.mkUser 1 "ann" "pw" 10 200 0; Server.mkUser 2 "bob" "pw" 80 900 0].


(** Twelve accounts with pairwise different scores, in no particular order. *)
Definition manyUsers : list Server.User :=
  [Server.mkUser 1 "u01" "pw" 40 0 0; Server.mkUser 2 "u02" "pw" 10 0 0;
   Server.mkUser 3 "u03" "pw" 90 0 0; Server.mkUser 4 "u04" "pw" 20 0 0;
   Server.mkUser 5 "u05" "pw" 70 0 0; Server.mkUser 6 "u06" "pw" 5 0 0;
   Server.mkUser 7 "u07" "pw" 60 0 0; Server.mkUser 8 "u08" "pw" 30 0 0;
   Server.mkUser 9 "u09" "pw" 80 0 0; Server.mkUser 10 "u10" "pw" 50 0 0;
   Server.mkUser 11 "u11" "pw" 100 0 0; Server.mkUser 12 "u12" "pw" 65 0 0].

(** ** The upgrade row *)

(** [canAfford] of the rendered upgrade button, which is disabled without
    it; its [onClick] is [buyUpgrade(upgrade.id)]. *)
Definition canAfford (g : GameState) (u : Upgrade) : bool :=
  Qle_bool (inject_Z (upgradeCost u)) (money g).

Definition clickUpgrade (u : Upgrade) (g : GameState) : completion GameState :=
  if canAfford g u then buyUpgrade (upgrade_id u) g else Returns g.

(** The countdown timeout firing [n] times in a row. *)
Definition viralSeconds (n : nat) (st : Studio) : Studio := Nat.iter n viralSecond st.

(** ** Invariants of a session *)

(** Notification ids are pairwise distinct and below the next id. *)
Definition notificationsFresh (st : Studio) : Prop :=
  NoDup (notification_id <$> notifications st) /\
  Forall (fun n => (notification_id n < nextNotificationId st)%nat) (notifications st).

(** The viral flag is up exactly while seconds remain, at most 15. *)
Definition viralConsistent (st : Studio) : Prop :=
  (isViral st = true /\ (0 < viralTimer st <= 15)%Z) \/
  (isViral st = false /\ viralTimer st = 0%Z).

(** Catalogue entries without negative numbers. *)
Definition upgradeSound (u : Upgrade) : Prop :=
  0 <= baseCost u /\ 0 <= multiplier u /\ 0 <= value u /\ (0 <= level u)%Z.

Definition contentSound (c : ContentType) : Prop :=
  0 <= baseViews c /\ 0 <= baseMoney c /\ 0 < duration c.

(** The active job, if any, has its progress between 0 and 100. *)
Definition progressInRange (st : Studio) : Prop :=
  forall job, activeVideo st = Some job -> 0 <= progress job <= 100.

(** Money is never negative nor above what was ever earned, and the
    upgrades keep non-negative numbers. *)
Definition ledgerSound (st : Studio) : Prop :=
  0 <= money (gameState st) /\
  money (gameState st) <= totalMoney (gameState st) /\
  Forall upgradeSound (upgrades (gameState st)).

Section Catalogue.

(** [constants.ts] is not part of the sources at hand: the content table
    it exports is a parameter of everything below. *)
Variable CONTENT_TYPES : list ContentType.

(** [CONTENT_TYPES.find(c => c.id === id)] *)
Definition findContent (id : string) : option ContentType :=
  snd <$> list_find (fun c => content_id c = id) CONTENT_TYPES.

(** [manualEdit]: each click is worth half a second of the duration, capped
    at 99.9. *)
Definition manualEdit (st : Studio) : Studio :=
  match activeVideo st with
  | None => st
  | Some prev =>
      match findContent (video_id prev) with
      | None => st
      | Some contentType =>
          let reductionPercent := (0.5 / duration contentType) * 100 in
          setActiveVideo st
            (Some (withProgress prev (Qmin (progress prev + reductionPercent) 99.9)))
      end
  end.

(** One firing of the 100 ms production interval.  The interval exists only
    while a job is active and its content type is found.  The [elapsed] and
    [progress] locals of the callback are computed and never used; the
    branch is taken on [prev.progress] alone. *)
Definition productionTick (st : Studio) : Studio :=
  match activeVideo st with
  | None => st
  | Some prev =>
      match findContent (video_id prev) with
      | None => st
      | Some contentType =>
          if Qle_bool 100 (progress prev) then
            let g := gameState st in
            let viewsGained := viewsGainedOf contentType g (isViral st) in
            let moneyGained := moneyGainedOf contentType g (isViral st) in
            let subsGained := subsGainedOf contentType g (isViral st) in
            setActiveVideo
              (addNotification (VideoPublished (isViral st) (Qfloor viewsGained))
                 (setGameState st (creditProduction g viewsGained moneyGained subsGained)))
              None
          else
            let timeStep := 0.1 in
            let autoIncrement := (timeStep / duration contentType) * 100 in
            setActiveVideo st
              (Some (withProgress prev (Qmin (progress prev + autoIncrement) 100)))
      end
  end.

(** [startVideo], given the reading of [Date.now()]. *)
Definition startVideo (id : string) (now : Z) (st : Studio) : Studio :=
  match activeVideo st with
  | Some _ => st
  | None => setActiveVideo st (Some (mkActiveVideo id 0 now))
  end.

(** The row rendered for a content type: the RECORD button is present only
    when [gameState.subscribers < type.unlockedAtSubs] is false, and is
    disabled while a job is active. *)
Inductive RecordButton := NoButton | ButtonDisabled | ButtonEnabled.

Definition isLocked (g : GameState) (t : ContentType) : bool :=
  negb (Qle_bool (unlockedAtSubs t) (subscribers g)).

Definition recordButton (st : Studio) (t : ContentType) : RecordButton :=
  if isLocked (gameState st) t then NoButton
  else match activeVideo st with
       | Some _ => ButtonDisabled
       | None => ButtonEnabled
       end.

(** The player pressing RECORD on the row of [t]: only an enabled button
    runs its [onClick], which is [startVideo(type.id)]. *)
Definition clickRecord (t : ContentType) (now : Z) (st : Studio) : Studio :=
  match recordButton st t with
  | ButtonEnabled => startVideo (content_id t) now st
  | NoButton | ButtonDisabled => st
  end.

(** ** Everything that can happen to a session *)

Inductive Event :=
| PassiveTick
| ProductionTick
| CheckViral (rand : Q)
| ViralSecond
| NotificationExpires (id : nat)
| ManualEdit
| ClickRecord (t : ContentType) (now : Z)
| BuyUpgrade (upgradeId : string).

Definition step (e : Event) (st : Studio) : completion Studio :=
  match e with
  | PassiveTick => Returns (passiveTick st)
  | ProductionTick => Returns (productionTick st)
  | CheckViral rand => Returns (checkViral rand st)
  | ViralSecond => Returns (viralSecond st)
  | NotificationExpires id => Returns (expireNotification id st)
  | ManualEdit => Returns (manualEdit st)
  | ClickRecord t now => Returns (clickRecord t now st)
  | BuyUpgrade upgradeId =>
      match buyUpgrade upgradeId (gameState st) with
      | Returns g => Returns (setGameState st g)
      | ThrowsTypeError => ThrowsTypeError
      end
  end.

(** A run of events, stopping at the first throw. *)
Fixpoint run (es : list Event) (st : Studio) : completion Studio :=
  match es with
  | [] => Returns st
  | e :: es' =>
      match step e st with
      | Returns st' => run es' st'
      | ThrowsTypeError => ThrowsTypeError
      end
  end.

(** The production interval firing [n] times in a row. *)
Definition ticks (n : nat) (st : Studio) : Studio := Nat.iter n productionTick st.

(** [n] clicks on the edit button in a row. *)
Definition clicks (n : nat) (st : Studio) : Studio := Nat.iter n manualEdit st.

(** ** How one event changes each part of the session *)

(** What one event does to the notification list: nothing, one append
    under the next id, or the removal of one id. *)
Inductive notificationChange (st st' : Studio) : Prop :=
| notifications_kept :
    notifications st' = notifications st ->
    nextNotificationId st' = nextNotificationId st ->
    notificationChange st st'
| notification_added (txt : NotificationText) :
    notifications st' =
      notifications st ++ [mkNotification (nextNotificationId st) txt] ->
    nextNotificationId st' = S (nextNotificationId st) ->
    notificationChange st st'
| notification_removed (id : nat) :
    notifications st' =
      List.filter (fun n => negb (Nat.eqb (notification_id n) id)) (notifications st) ->
    nextNotificationId st' = nextNotificationId st ->
    notificationChange st st'.

(** What one event does to the ledger. *)
Inductive ledgerChange (st st' : Studio) : Prop :=
| ledger_kept : gameState st' = gameState st -> ledgerChange st st'
| ledger_passive : gameState st' = gameState (passiveTick st) -> ledgerChange st st'
| ledger_credit (ct : ContentType) :
    ct ∈ CONTENT_TYPES ->
    gameState st' =
      creditProduction (gameState st)
        (viewsGainedOf ct (gameState st) (isViral st))
        (moneyGainedOf ct (gameState st) (isViral st))
        (subsGainedOf ct (gameState st) (isViral st)) ->
    ledgerChange st st'
| ledger_purchase (upgradeId : string) :
    buyUpgrade upgradeId (gameState st) = Returns (gameState st') ->
    ledgerChange st st'.

(** What one event does to the active job. *)
Inductive jobChange (st st' : Studio) : Prop :=
| job_kept : activeVideo st' = activeVideo st -> jobChange st st'
| job_ticked : st' = productionTick st -> jobChange st st'
| job_edited : st' = manualEdit st -> jobChange st st'
| job_started (id : string) (now : Z) :
    activeVideo st = None ->
    activeVideo st' = Some (mkActiveVideo id 0 now) -> jobChange st st'.

(** A short session touching every kind of event. *)
Definition sampleEvents : list Event :=
  [ClickRecord vlog 0; ManualEdit; ProductionTick; PassiveTick; CheckViral 0.001;
   ViralSecond; BuyUpgrade "camera"; NotificationExpires 0].

(** * Properties *)

(** ** Upgrade prices *)



Lemma buyUpgrade_found (upgradeId : string) (g : GameState) (i : nat) (u : Upgrade) :
  list_find (fun u => upgrade_id u = upgradeId) (upgrades g) = Some (i, u) ->
  buyUpgrade upgradeId g =
    if Qle_bool (inject_Z (upgradeCost u)) (money g)
    then Returns (setMoneyUpgrades g (money g - inject_Z (upgradeCost u))
                    (<[i := levelUp u]> (upgrades g)))
    else Returns g.
Proof. intros Hf. unfold buyUpgrade. rewrite Hf. reflexivity. Qed.

Lemma known_upgrade_found (upgradeId : string) (us : list Upgrade) :
  upgradeId ∈ upgrade_id <$> us ->
  exists i u, list_find (fun u => upgrade_id u = upgradeId) us = Some (i, u).
Proof.
  intros Hin.
  apply list_elem_of_fmap in Hin as (u & -> & Hu).
  destruct (list_find (fun u0 => upgrade_id u0 = upgrade_id u) us) as [[i u']|] eqn:Hf.
  - eauto.
  - exfalso. rewrite list_find_None in Hf.
    rewrite Forall_forall in Hf. exact (Hf u Hu eq_refl).
Qed.




(** In doubles the product at level 1 can fall just short of the integer
    the decimal figures suggest, so the floor is one less: 100 x 1.15 stays
    below 115, and 200 x 1.005 stays below 201 (the price repeats: 200 at
    level 0, 200 at level 1). *)
Lemma double_product_falls_short :
  PrimFloat.ltb (levelOneProductDouble 100%float 1.15%float) 115%float = true /\
  PrimFloat.leb 114%float (levelOneProductDouble 100%float 1.15%float) = true /\
  PrimFloat.ltb (levelOneProductDouble 200%float 1.005%float) 201%float = true /\
  PrimFloat.leb 200%float (levelOneProductDouble 200%float 1.005%float) = true.
Proof. vm_compute. repeat split. Qed.

(** ** Purchases *)

(** C3.  For every ledger and every id found among its upgrades (at the
    first position [i] holding it): an unaffordable purchase returns the
    ledger as it was; an affordable one takes exactly the price off
    [money], raises the level of the entry at [i] by one and changes no
    other entry, no other field of that entry and no other field of the
    ledger; and a non-negative [money] stays non-negative. *)
Theorem purchase_all_or_nothing (g : GameState) (upgradeId : string) :
  upgradeId ∈ upgrade_id <$> upgrades g ->
  exists (i : nat) (u : Upgrade),
    upgrades g !! i = Some u /\ upgrade_id u = upgradeId /\
    (forall j y, upgrades g !! j = Some y -> (j < i)%nat -> upgrade_id y <> upgradeId) /\
    (money g < inject_Z (upgradeCost u) -> buyUpgrade upgradeId g = Returns g) /\
    (inject_Z (upgradeCost u) <= money g ->
     exists g' u',
       buyUpgrade upgradeId g = Returns g' /\
       money g' = money g - inject_Z (upgradeCost u) /\
       upgrades g' !! i = Some u' /\
       level u' = (level u + 1)%Z /\ sameButLevel u u' /\
       (forall j, j <> i -> upgrades g' !! j = upgrades g !! j) /\
       length (upgrades g') = length (upgrades g) /\
       sameButMoneyUpgrades g g') /\
    (0 <= money g ->
     exists g', buyUpgrade upgradeId g = Returns g' /\ 0 <= money g').
Proof.
  intros Hin.
  destruct (known_upgrade_found _ _ Hin) as (i & u & Hf).
  pose proof Hf as Hspec. apply list_find_Some in Hspec as (Hi & Hid & Hfirst).
  exists i, u. rewrite (buyUpgrade_found _ _ _ _ Hf).
  split; [exact Hi|]. split; [exact Hid|]. split; [exact Hfirst|].
  split; [|split].
  - intros Hlt.
    destruct (Qle_bool _ _) eqn:Hb; [|reflexivity].
    apply Qle_bool_iff in Hb. lra.
  - intros Hle. pose proof Hle as Hb. apply Qle_bool_iff in Hb. rewrite Hb.
    eexists; exists (levelUp u). split; [reflexivity|].
    cbn [setMoneyUpgrades money upgrades].
    split; [reflexivity|]. split.
    { apply list_lookup_insert_eq. eapply lookup_lt_Some; eauto. }
    split; [reflexivity|]. split; [repeat split|].
    split; [intros j Hj; apply list_lookup_insert_ne; congruence|].
    split; [apply length_insert|]. repeat split.
  - intros Hpos.
    destruct (Qle_bool _ _) eqn:Hb.
    + eexists; split; [reflexivity|].
      apply Qle_bool_iff in Hb. cbn [setMoneyUpgrades money]. lra.
    + eexists; split; [reflexivity|]. exact Hpos.
Qed.

Lemma purchase_all_or_nothing_witness :
  "camera"%string ∈ upgrade_id <$> upgrades (withMoney (newGame [camera]) 25) /\
  exists g', buyUpgrade "camera" (withMoney (newGame [camera]) 25) = Returns g' /\
             0 <= money g'.
Proof.
  assert (Hin : "camera"%string ∈ upgrade_id <$> upgrades (withMoney (newGame [camera]) 25)).
  { apply list_elem_of_here. }
  split; [exact Hin|].
  destruct (purchase_all_or_nothing _ _ Hin) as (i & u & _ & _ & _ & _ & _ & Hkeep).
  apply Hkeep. vm_compute. discriminate.
Defined.

Lemma levelUp_differs (u : Upgrade) : levelUp u <> u.
Proof.
  intros Heq. apply (f_equal level) in Heq. cbn [levelUp level] in Heq. lia.
Qed.

(** C8 (as amended).  For an id found among the ledger's upgrades,
    [buyUpgrade] returns and never throws.  It hands back no success flag:
    the outcome shows in the ledger alone, which differs from the previous
    one exactly when the price could be paid. *)
Theorem purchase_known_id_returns (g : GameState) (upgradeId : string) :
  upgradeId ∈ upgrade_id <$> upgrades g ->
  exists (g' : GameState) (i : nat) (u : Upgrade),
    buyUpgrade upgradeId g = Returns g' /\
    list_find (fun x => upgrade_id x = upgradeId) (upgrades g) = Some (i, u) /\
    ((inject_Z (upgradeCost u) <= money g /\ g' <> g) \/
     (money g < inject_Z (upgradeCost u) /\ g' = g)).
Proof.
  intros Hin.
  destruct (known_upgrade_found _ _ Hin) as (i & u & Hf).
  pose proof Hf as Hspec. apply list_find_Some in Hspec as (Hi & _ & _).
  rewrite (buyUpgrade_found _ _ _ _ Hf).
  destruct (Qle_bool _ _) eqn:Hb.
  - eexists; exists i, u. split; [reflexivity|]. split; [exact Hf|].
    left. split; [apply Qle_bool_iff; exact Hb|].
    intros Heq. apply (f_equal upgrades) in Heq.
    cbn [setMoneyUpgrades upgrades] in Heq.
    apply (f_equal (fun l => l !! i)) in Heq.
    rewrite list_lookup_insert_eq in Heq by (eapply lookup_lt_Some; eauto).
    rewrite Hi in Heq. injection Heq as Heq. exact (levelUp_differs u Heq).
  - eexists; exists i, u. split; [reflexivity|]. split; [exact Hf|].
    right. split; [|reflexivity].
    apply Qnot_le_lt. intros Hle. apply Qle_bool_iff in Hle. congruence.
Qed.

Lemma purchase_known_id_returns_witness :
  "camera"%string ∈ upgrade_id <$> upgrades (newGame [camera]) /\
  exists g', buyUpgrade "camera" (newGame [camera]) = Returns g'.
Proof.
  assert (Hin : "camera"%string ∈ upgrade_id <$> upgrades (newGame [camera])).
  { apply list_elem_of_here. }
  split; [exact Hin|].
  destruct (purchase_known_id_returns _ _ Hin) as (g' & _ & _ & Hret & _).
  exists g'. exact Hret.
Defined.

(** C8 as first stated fails: for an id that no upgrade carries the lookup
    yields [undefined] and reading its [baseCost] throws. *)
Lemma purchase_unknown_id_throws :
  buyUpgrade "teleprompter" (newGame [camera]) = ThrowsTypeError.
Proof. reflexivity. Qed.

(** ** Production *)

Lemma productionTick_done (st : Studio) (job : ActiveVideo) (ct : ContentType) :
  activeVideo st = Some job -> findContent (video_id job) = Some ct ->
  100 <= progress job ->
  productionTick st =
    setActiveVideo
      (addNotification
         (VideoPublished (isViral st) (Qfloor (viewsGainedOf ct (gameState st) (isViral st))))
         (setGameState st
            (creditProduction (gameState st)
               (viewsGainedOf ct (gameState st) (isViral st))
               (moneyGainedOf ct (gameState st) (isViral st))
               (subsGainedOf ct (gameState st) (isViral st)))))
      None.
Proof.
  intros Hjob Hct Hdone. unfold productionTick.
  rewrite Hjob, Hct. apply Qle_bool_iff in Hdone. rewrite Hdone. reflexivity.
Qed.

Lemma productionTick_running (st : Studio) (job : ActiveVideo) (ct : ContentType) :
  activeVideo st = Some job -> findContent (video_id job) = Some ct ->
  progress job < 100 ->
  productionTick st =
    setActiveVideo st
      (Some (withProgress job (Qmin (progress job + 0.1 / duration ct * 100) 100))).
Proof.
  intros Hjob Hct Hrun. unfold productionTick.
  rewrite Hjob, Hct.
  destruct (Qle_bool 100 (progress job)) eqn:Hb; [|reflexivity].
  apply Qle_bool_iff in Hb. lra.
Qed.

Lemma productionTick_idle (st : Studio) :
  activeVideo st = None -> productionTick st = st.
Proof. intros Hidle. unfold productionTick. rewrite Hidle. reflexivity. Qed.

(** C1.  When the tick finds [progress >= 100] on the active job, it adds
    [viewsGained = baseViews * (1 + passiveViews * 0.1) * viralBoost] to
    views and total views, [moneyGained = baseMoney * moneyMultiplier *
    viralBoost] to money and total money, and [subscribersGained =
    max(0, viewsGained * 0.05 * (1 + passiveSubs * 0.1))] to subscribers,
    with [viralBoost] 3 under the viral flag and 1 otherwise; it appends one
    notification and clears the job. *)
Theorem completion_commits_yield (st : Studio) (job : ActiveVideo) (ct : ContentType) :
  activeVideo st = Some job -> findContent (video_id job) = Some ct ->
  100 <= progress job ->
  let g := gameState st in
  let viralBoost := if isViral st then 3 else 1 in
  let viewsGained := baseViews ct * (1 + getPassiveViews g * 0.1) * viralBoost in
  let moneyGained := baseMoney ct * getMoneyMultiplier g * viralBoost in
  let subscribersGained :=
    Qmax 0 (viewsGained * 0.05 * (1 + getPassiveSubs g * 0.1)) in
  let st' := productionTick st in
  views (gameState st') = views g + viewsGained /\
  totalViews (gameState st') = totalViews g + viewsGained /\
  money (gameState st') = money g + moneyGained /\
  totalMoney (gameState st') = totalMoney g + moneyGained /\
  subscribers (gameState st') = subscribers g + subscribersGained /\
  upgrades (gameState st') = upgrades g /\
  unlockedContentTypes (gameState st') = unlockedContentTypes g /\
  lastSaved (gameState st') = lastSaved g /\
  notifications st' =
    notifications st ++
      [mkNotification (nextNotificationId st)
         (VideoPublished (isViral st) (Qfloor viewsGained))] /\
  nextNotificationId st' = S (nextNotificationId st) /\
  activeVideo st' = None /\
  isViral st' = isViral st /\ viralTimer st' = viralTimer st.
Proof.
  intros Hjob Hct Hdone. cbv zeta.
  rewrite (productionTick_done st job ct Hjob Hct Hdone).
  repeat split.
Qed.

(** C5.  On completion the viral flag multiplies the views and the money
    committed by exactly 3, and leaves them at the unboosted yield when it is
    off; the passive tick adds [passiveViews / 10] and [passiveSubs / 10]
    whatever the viral flag and timer are. *)
Theorem viral_boost_only_on_yield (st : Studio) (job : ActiveVideo) (ct : ContentType)
    (t : Z) :
  activeVideo st = Some job -> findContent (video_id job) = Some ct ->
  100 <= progress job ->
  let g := gameState st in
  let plainViews := baseViews ct * (1 + getPassiveViews g * 0.1) in
  let plainMoney := baseMoney ct * getMoneyMultiplier g in
  let viral := productionTick (setViral st true t) in
  let calm := productionTick (setViral st false t) in
  views (gameState viral) - views g == 3 * plainViews /\
  money (gameState viral) - money g == 3 * plainMoney /\
  views (gameState calm) - views g == 1 * plainViews /\
  money (gameState calm) - money g == 1 * plainMoney /\
  (forall (s : Studio) (b : bool) (t' : Z),
      gameState (passiveTick (setViral s b t')) = gameState (passiveTick s) /\
      views (gameState (passiveTick s)) = views (gameState s) + getPassiveViews (gameState s) / 10 /\
      subscribers (gameState (passiveTick s)) =
        subscribers (gameState s) + getPassiveSubs (gameState s) / 10).
Proof.
  intros Hjob Hct Hdone. cbv zeta.
  rewrite (productionTick_done (setViral st true t) job ct Hjob Hct Hdone).
  rewrite (productionTick_done (setViral st false t) job ct Hjob Hct Hdone).
  cbn [setViral setActiveVideo addNotification setGameState gameState isViral
       creditProduction views money].
  unfold viewsGainedOf, moneyGainedOf, boostOf.
  repeat split; try ring.
Qed.

(** ** Starting a job *)

(** C4.  Pressing RECORD on a content row does nothing while a job is in
    progress; does nothing while idle when [subscribers < unlockedAtSubs]
    (the row then has no button); and while idle on an unlocked row it makes
    that content the active job at progress 0, leaving the rest of the
    session as it was. *)
Theorem record_starts_only_idle_unlocked (t : ContentType) (now : Z) (st : Studio) :
  (forall job, activeVideo st = Some job -> clickRecord t now st = st) /\
  (activeVideo st = None -> subscribers (gameState st) < unlockedAtSubs t ->
   clickRecord t now st = st) /\
  (activeVideo st = None -> unlockedAtSubs t <= subscribers (gameState st) ->
   clickRecord t now st = setActiveVideo st (Some (mkActiveVideo (content_id t) 0 now)) /\
   exists job, activeVideo (clickRecord t now st) = Some job /\
     video_id job = content_id t /\ progress job = 0).
Proof.
  unfold clickRecord, recordButton, isLocked, startVideo.
  split; [|split].
  - intros job Hjob. rewrite Hjob.
    destruct (negb _); reflexivity.
  - intros Hidle Hlock. rewrite Hidle.
    destruct (Qle_bool _ _) eqn:Hb; [|reflexivity].
    apply Qle_bool_iff in Hb. lra.
  - intros Hidle Hopen. rewrite Hidle.
    apply Qle_bool_iff in Hopen. rewrite Hopen. cbn [negb].
    split; [reflexivity|]. eexists. split; [reflexivity|]. split; reflexivity.
Qed.

(** The handler on its own checks only that no job is active: the unlock
    threshold is enforced by the rendered row, not by [startVideo]. *)
Lemma startVideo_ignores_threshold (id : string) (now : Z) (st : Studio) :
  activeVideo st = None ->
  startVideo id now st = setActiveVideo st (Some (mkActiveVideo id 0 now)).
Proof. intros Hidle. unfold startVideo. rewrite Hidle. reflexivity. Qed.

(** ** Manual editing *)

Lemma manualEdit_job (st : Studio) (job : ActiveVideo) (ct : ContentType) :
  activeVideo st = Some job -> findContent (video_id job) = Some ct ->
  manualEdit st =
    setActiveVideo st
      (Some (withProgress job (Qmin (progress job + 0.5 / duration ct * 100) 99.9))).
Proof.
  intros Hjob Hct. unfold manualEdit. rewrite Hjob, Hct. reflexivity.
Qed.

Lemma capped_below_100 (x : Q) : Qmin x 99.9 < 100.
Proof. pose proof (Q.le_min_r x 99.9). lra. Qed.

Lemma clicks_keep_job (n : nat) (st : Studio) (job : ActiveVideo) (ct : ContentType) :
  activeVideo st = Some job -> findContent (video_id job) = Some ct ->
  (0 < n)%nat -> editedFrom st (clicks n st) job.
Proof.
  intros Hjob Hct Hn.
  destruct n as [|n]; [lia|]. clear Hn.
  induction n as [|n IH].
  - change (clicks 1 st) with (manualEdit st).
    rewrite (manualEdit_job st job ct Hjob Hct).
    eexists. split; [reflexivity|].
    cbn [withProgress progress video_id startTime].
    split; [apply capped_below_100|]. repeat split.
  - destruct IH as (job' & Hjob' & _ & Hid & Hstart & Hg & Hnot & Hnext & Hv & Ht).
    change (clicks (S (S n)) st) with (manualEdit (clicks (S n) st)).
    assert (Hct' : findContent (video_id job') = Some ct) by (rewrite Hid; exact Hct).
    rewrite (manualEdit_job _ job' ct Hjob' Hct').
    eexists. split; [reflexivity|].
    cbn [withProgress progress video_id startTime setActiveVideo gameState
         notifications nextNotificationId isViral viralTimer].
    split; [apply capped_below_100|]. repeat split; assumption.
Qed.

Lemma step_keeps_job (e : Event) (st st' : Studio) :
  e <> ProductionTick -> is_Some (activeVideo st) -> step e st = Returns st' ->
  is_Some (activeVideo st').
Proof.
  intros He [job Hjob] Hstep.
  destruct e; cbn [step] in Hstep; try congruence.
  - injection Hstep as <-. cbn. rewrite Hjob. eauto.
  - injection Hstep as <-. unfold checkViral, viralEffect.
    repeat (destruct (_ && _) || destruct (_ =? _)%Z); cbn; rewrite Hjob; eauto.
  - injection Hstep as <-. unfold viralSecond, viralEffect.
    repeat (destruct (_ && _) || destruct (_ =? _)%Z); cbn; rewrite Hjob; eauto.
  - injection Hstep as <-. cbn. rewrite Hjob. eauto.
  - injection Hstep as <-. unfold manualEdit. rewrite Hjob.
    destruct (findContent _); cbn; [eauto | rewrite Hjob; eauto].
  - injection Hstep as <-. unfold clickRecord, startVideo.
    destruct (recordButton st t); rewrite ?Hjob; eauto.
  - destruct (buyUpgrade upgradeId (gameState st)); [|discriminate].
    injection Hstep as <-. cbn. rewrite Hjob. eauto.
Qed.

Lemma run_keeps_job (es : list Event) (st st' : Studio) :
  ProductionTick ∉ es -> is_Some (activeVideo st) -> run es st = Returns st' ->
  is_Some (activeVideo st').
Proof.
  revert st. induction es as [|e es IH]; intros st Hno Hjob Hrun.
  - cbn in Hrun. injection Hrun as <-. exact Hjob.
  - cbn [run] in Hrun.
    apply not_elem_of_cons in Hno as [Hne Hno].
    destruct (step e st) as [st1|] eqn:Hstep; [|discriminate].
    apply (IH st1 Hno); [|exact Hrun].
    eapply step_keeps_job; eauto.
Qed.

(** C6.  On an active job of known content with positive duration one click sets progress to
    [min(progress + 0.5 / duration * 100, 99.9)], which is below 100; after
    any number of clicks the job is still active and below 100 with ledger
    and notifications untouched; no run of events without a production tick
    ends the job; and a production tick that sees progress below 100 keeps
    the job and the ledger. *)
Theorem manual_edit_never_completes (st : Studio) (job : ActiveVideo) (ct : ContentType) :
  activeVideo st = Some job -> findContent (video_id job) = Some ct ->
  0 < duration ct ->
  (exists job', activeVideo (manualEdit st) = Some job' /\
     progress job' = Qmin (progress job + 0.5 / duration ct * 100) 99.9 /\
     progress job' < 100) /\
  (forall n, (0 < n)%nat -> editedFrom st (clicks n st) job) /\
  (forall es st', ProductionTick ∉ es -> run es st = Returns st' ->
     is_Some (activeVideo st')) /\
  (forall s j, activeVideo s = Some j -> progress j < 100 ->
     is_Some (activeVideo (productionTick s)) /\
     gameState (productionTick s) = gameState s /\
     notifications (productionTick s) = notifications s).
Proof.
  intros Hjob Hct _. split; [|split; [|split]].
  - rewrite (manualEdit_job st job ct Hjob Hct).
    eexists. split; [reflexivity|]. cbn [withProgress progress].
    split; [reflexivity | apply capped_below_100].
  - intros n Hn. exact (clicks_keep_job n st job ct Hjob Hct Hn).
  - intros es st' Hno Hrun. apply (run_keeps_job es st st' Hno); [|exact Hrun].
    rewrite Hjob. eauto.
  - intros s j Hj Hlt. unfold productionTick. rewrite Hj.
    destruct (findContent (video_id j)) as [c|]; [|rewrite Hj; eauto].
    destruct (Qle_bool 100 (progress j)) eqn:Hb.
    + apply Qle_bool_iff in Hb. lra.
    + cbn. eauto.
Qed.

(** ** A whole production run *)

Lemma ticks_S (n : nat) (st : Studio) : ticks (S n) st = productionTick (ticks n st).
Proof. reflexivity. Qed.

Lemma ticks_idle (n : nat) (st : Studio) : activeVideo st = None -> ticks n st = st.
Proof.
  intros Hidle. induction n as [|n IH]; [reflexivity|].
  rewrite ticks_S, IH. apply productionTick_idle, Hidle.
Qed.

Lemma ticks_add (a b : nat) (st : Studio) : ticks (a + b) st = ticks a (ticks b st).
Proof. unfold ticks. apply Nat.iter_add. Qed.

Section TickArithmetic.

(** [N] ticks of 0.1 s fill a duration [d]; each adds [0.1 / d * 100]. *)
Variables (d N : Q).
Hypothesis d_pos : 0 < d.
Hypothesis N_ticks : N * 0.1 == d.

Lemma increment_value : 0.1 / d * 100 == 10 / d.
Proof. field. lra. Qed.

Lemma increment_pos : 0 < 0.1 / d * 100.
Proof.
  rewrite increment_value. apply Qlt_shift_div_l; [exact d_pos | lra].
Qed.

Lemma all_ticks_reach_100 : N * (0.1 / d * 100) == 100.
Proof.
  rewrite increment_value.
  assert (HN : N == 10 * d) by lra.
  rewrite HN. field. lra.
Qed.

Lemma fewer_ticks_below_100 (K : Q) : K + 1 <= N -> K * (0.1 / d * 100) < 100.
Proof.
  intros HK.
  pose proof increment_pos as Hpos. pose proof all_ticks_reach_100 as Hall.
  set (inc := 0.1 / d * 100) in *.
  assert (H : 0 <= (N - K - 1) * inc).
  { apply Qmult_le_0_compat; lra. }
  lra.
Qed.

End TickArithmetic.

Lemma inject_nat_S (k : nat) :
  inject_Z (Z.of_nat (S k)) == inject_Z (Z.of_nat k) + 1.
Proof. rewrite Nat2Z.inj_succ, <- Z.add_1_r, inject_Z_plus. reflexivity. Qed.

Lemma inject_nat_lt (k n : nat) :
  (k < n)%nat -> inject_Z (Z.of_nat k) + 1 <= inject_Z (Z.of_nat n).
Proof.
  intros Hlt. rewrite <- inject_nat_S. rewrite <- Zle_Qle. lia.
Qed.

(** While fewer ticks have fired than the duration holds, the job advances
    by one increment per tick and nothing else moves. *)
Lemma ticks_running (st : Studio) (ct : ContentType) (now : Z) (n k : nat) :
  findContent (content_id ct) = Some ct -> 0 < duration ct ->
  inject_Z (Z.of_nat n) * 0.1 == duration ct -> (k <= n)%nat ->
  exists p,
    ticks k (setActiveVideo st (Some (mkActiveVideo (content_id ct) 0 now)))
      = setActiveVideo st (Some (mkActiveVideo (content_id ct) p now)) /\
    p == inject_Z (Z.of_nat k) * (0.1 / duration ct * 100).
Proof.
  intros Hct Hd Hn. induction k as [|k IH]; intros Hk.
  - exists 0. split; [reflexivity|]. change (inject_Z (Z.of_nat 0)) with 0. ring.
  - destruct IH as (p & Hticks & Hp); [lia|].
    assert (Hlt : p < 100).
    { rewrite Hp. apply (fewer_ticks_below_100 _ _ Hd Hn).
      apply inject_nat_lt. lia. }
    rewrite ticks_S, Hticks.
    set (job := mkActiveVideo (content_id ct) p now).
    rewrite (productionTick_running (setActiveVideo st (Some job)) job ct
               eq_refl Hct Hlt).
    eexists. split; [reflexivity|].
    subst job. cbn [progress].
    assert (Hnext : p + 0.1 / duration ct * 100
                    == inject_Z (Z.of_nat (S k)) * (0.1 / duration ct * 100)).
    { rewrite inject_nat_S, Hp. ring. }
    rewrite Q.min_l; [exact Hnext|].
    rewrite Hnext.
    destruct (Nat.eq_dec (S k) n) as [->|Hne].
    + rewrite (all_ticks_reach_100 _ _ Hd Hn). lra.
    + apply Qlt_le_weak. apply (fewer_ticks_below_100 _ _ Hd Hn).
      apply inject_nat_lt. lia.
Qed.

(** C7 (as amended).  Start a job from idle on content of positive
    duration, and let [n] ticks of 0.1 s add up to that duration.  Through
    those [n] ticks the job stays active with progress at most 100 and
    neither ledger nor notifications change; after the [n]-th its progress
    is within one tick's increment of 100.  At every later moment the
    session is either still in that state or has completed exactly once:
    the yield credited once, one notification appended, the job cleared.
    Two ticks after the [n]-th at the latest it has completed, and further
    ticks change nothing. *)
Theorem production_completes_once_after_duration
    (st : Studio) (ct : ContentType) (now : Z) (n : nat) :
  activeVideo st = None -> findContent (content_id ct) = Some ct ->
  0 < duration ct -> inject_Z (Z.of_nat n) * 0.1 == duration ct ->
  let started := startVideo (content_id ct) now st in
  let g := gameState st in
  let credited :=
    creditProduction g (viewsGainedOf ct g (isViral st))
      (moneyGainedOf ct g (isViral st)) (subsGainedOf ct g (isViral st)) in
  let announced :=
    notifications st ++
      [mkNotification (nextNotificationId st)
         (VideoPublished (isViral st) (Qfloor (viewsGainedOf ct g (isViral st))))] in
  (exists job, activeVideo started = Some job /\ progress job = 0) /\
  (forall k, (k <= n)%nat ->
     exists job, activeVideo (ticks k started) = Some job /\
       progress job <= 100 /\
       gameState (ticks k started) = g /\
       notifications (ticks k started) = notifications st) /\
  (exists job, activeVideo (ticks n started) = Some job /\
     100 - 0.1 / duration ct * 100 < progress job) /\
  (forall m,
     (is_Some (activeVideo (ticks m started)) /\
      gameState (ticks m started) = g /\
      notifications (ticks m started) = notifications st) \/
     (activeVideo (ticks m started) = None /\
      gameState (ticks m started) = credited /\
      notifications (ticks m started) = announced)) /\
  (activeVideo (ticks (S (S n)) started) = None /\
   gameState (ticks (S (S n)) started) = credited /\
   notifications (ticks (S (S n)) started) = announced) /\
  (forall m, (S (S n) <= m)%nat -> ticks m started = ticks (S (S n)) started).
Proof.
  intros Hidle Hct Hd Hn. cbv zeta.
  rewrite (startVideo_ignores_threshold _ _ _ Hidle).
  set (started := setActiveVideo st (Some (mkActiveVideo (content_id ct) 0 now))).
  pose proof (ticks_running st ct now n n Hct Hd Hn (Nat.le_refl n))
    as (p & Hticks & Hp).
  fold started in Hticks.
  rewrite (all_ticks_reach_100 _ _ Hd Hn) in Hp.
  pose proof (increment_pos _ Hd) as Hinc.
  assert (Hrun : forall k, (k <= n)%nat ->
            exists job, activeVideo (ticks k started) = Some job /\
              progress job <= 100 /\
              gameState (ticks k started) = gameState st /\
              notifications (ticks k started) = notifications st).
  { intros k Hk.
    destruct (ticks_running st ct now n k Hct Hd Hn Hk) as (q & Hq & Hqv).
    fold started in Hq. rewrite Hq. eexists. split; [reflexivity|].
    cbn [progress]. split; [|split; reflexivity].
    rewrite Hqv.
    destruct (Nat.eq_dec k n) as [->|Hne].
    - rewrite (all_ticks_reach_100 _ _ Hd Hn). lra.
    - apply Qlt_le_weak, (fewer_ticks_below_100 _ _ Hd Hn), inject_nat_lt. lia. }
  assert (Hdone : activeVideo (ticks (S n) started) = None
          /\ gameState (ticks (S n) started) =
             creditProduction (gameState st)
               (viewsGainedOf ct (gameState st) (isViral st))
               (moneyGainedOf ct (gameState st) (isViral st))
               (subsGainedOf ct (gameState st) (isViral st))
          /\ notifications (ticks (S n) started) =
             notifications st ++
               [mkNotification (nextNotificationId st)
                  (VideoPublished (isViral st)
                     (Qfloor (viewsGainedOf ct (gameState st) (isViral st))))]).
  { rewrite ticks_S, Hticks.
    set (job := mkActiveVideo (content_id ct) p now).
    assert (Hfull : 100 <= progress job) by (subst job; cbn [progress]; lra).
    rewrite (productionTick_done (setActiveVideo st (Some job)) job ct
               eq_refl Hct Hfull).
    repeat split. }
  assert (Hlater : forall m, (S n <= m)%nat -> ticks m started = ticks (S n) started).
  { intros m Hm. replace m with ((m - S n) + S n)%nat by lia.
    rewrite ticks_add. apply ticks_idle. apply Hdone. }
  split; [eexists; split; reflexivity|].
  split; [exact Hrun|].
  split; [rewrite Hticks; eexists; split; [reflexivity | cbn [progress]; lra]|].
  split; [|split].
  - intros m. destruct (le_lt_dec m n) as [Hm|Hm].
    + left. destruct (Hrun m Hm) as (job & Hjob & _ & Hg & Hnote).
      rewrite Hjob. eauto.
    + right. rewrite (Hlater m) by lia. exact Hdone.
  - rewrite (Hlater (S (S n))) by lia. exact Hdone.
  - intros m Hm. rewrite (Hlater m), (Hlater (S (S n))) by lia. reflexivity.
Qed.

End Catalogue.

Lemma vlog_listed : findContent [vlog; podcast] (content_id vlog) = Some vlog.
Proof. reflexivity. Qed.

Lemma production_completes_once_after_duration_witness :
  activeVideo (ticks [vlog; podcast] 602
                 (startVideo (content_id vlog) 0 (newStudio [camera]))) = None /\
  views (gameState (ticks [vlog; podcast] 602
                      (startVideo (content_id vlog) 0 (newStudio [camera])))) == 100 /\
  length (notifications (ticks [vlog; podcast] 602
                           (startVideo (content_id vlog) 0 (newStudio [camera])))) = 1%nat.
Proof.
  assert (Hidle : activeVideo (newStudio [camera]) = None) by reflexivity.
  assert (Hd : 0 < duration vlog) by reflexivity.
  assert (Hn : inject_Z (Z.of_nat 600) * 0.1 == duration vlog) by reflexivity.
  destruct (production_completes_once_after_duration [vlog; podcast]
              (newStudio [camera]) vlog 0 600 Hidle vlog_listed Hd Hn)
    as (_ & _ & _ & _ & (Hnone & Hg & Hnote) & _).
  split; [exact Hnone|]. split.
  - rewrite Hg. reflexivity.
  - rewrite Hnote. reflexivity.
Defined.

(** C7 as first stated fails: for the 60 s content, after the 600 ticks that
    add up to its duration the job is still active at progress 100, no views
    have been credited and no notification exists. *)
Lemma production_not_complete_at_duration :
  inject_Z (Z.of_nat 600) * 0.1 == duration vlog /\
  let s := ticks [vlog; podcast] 600
             (startVideo (content_id vlog) 0 (newStudio [camera])) in
  (exists job, activeVideo s = Some job /\ progress job == 100) /\
  views (gameState s) == 0 /\
  notifications s = [].
Proof.
  split; [reflexivity|]. cbv zeta.
  split; [|split].
  - eexists. split; [vm_compute; reflexivity|]. reflexivity.
  - vm_compute. reflexivity.
  - vm_compute. reflexivity.
Qed.

(** The same scenario in doubles: for 60 s the 600th tick brings progress to
    exactly 100, so the 601st is the one that sees it.  For 3 s the 30 ticks
    of the duration stop just short of 100, the 31st reaches it and the 32nd
    sees it. *)
Lemma double_replay_sixty_seconds :
  seesCompletion (progressAfterDouble 599 60%float) = false /\
  progressAfterDouble 600 60%float = 100%float /\
  seesCompletion (progressAfterDouble 600 60%float) = true.
Proof. vm_compute. repeat split. Qed.

Lemma double_replay_three_seconds :
  seesCompletion (progressAfterDouble 30 3%float) = false /\
  seesCompletion (progressAfterDouble 31 3%float) = true.
Proof. vm_compute. repeat split. Qed.

Lemma finished_vlog_listed :
  findContent [vlog; podcast] (video_id (mkActiveVideo "vlog" 100 0)) = Some vlog.
Proof. reflexivity. Qed.

Lemma completion_commits_yield_witness :
  views (gameState (productionTick [vlog; podcast] finishedStudio)) == 100 /\
  money (gameState (productionTick [vlog; podcast] finishedStudio)) == 5 /\
  subscribers (gameState (productionTick [vlog; podcast] finishedStudio)) == 5 /\
  activeVideo (productionTick [vlog; podcast] finishedStudio) = None.
Proof.
  assert (Hfull : 100 <= progress (mkActiveVideo "vlog" 100 0)).
  { vm_compute. discriminate. }
  destruct (completion_commits_yield [vlog; podcast] finishedStudio
              (mkActiveVideo "vlog" 100 0) vlog eq_refl finished_vlog_listed Hfull)
    as (Hv & _ & Hm & _ & Hs & _ & _ & _ & _ & _ & Hnone & _).
  split; [rewrite Hv; reflexivity|].
  split; [rewrite Hm; reflexivity|].
  split; [rewrite Hs; reflexivity|].
  exact Hnone.
Defined.

Lemma viral_boost_only_on_yield_witness :
  views (gameState (productionTick [vlog; podcast] (setViral finishedStudio true 15)))
    - views (gameState finishedStudio) == 300.
Proof.
  assert (Hfull : 100 <= progress (mkActiveVideo "vlog" 100 0)).
  { vm_compute. discriminate. }
  destruct (viral_boost_only_on_yield [vlog; podcast] finishedStudio
              (mkActiveVideo "vlog" 100 0) vlog 15 eq_refl finished_vlog_listed Hfull)
    as (Hv & _).
  rewrite Hv. reflexivity.
Defined.

Lemma record_starts_only_idle_unlocked_witness :
  clickRecord podcast 7 (newStudio [camera]) = newStudio [camera] /\
  clickRecord vlog 7 (newStudio [camera]) =
    setActiveVideo (newStudio [camera]) (Some (mkActiveVideo "vlog" 0 7)).
Proof.
  destruct (record_starts_only_idle_unlocked podcast 7 (newStudio [camera]))
    as (_ & Hlocked & _).
  destruct (record_starts_only_idle_unlocked vlog 7 (newStudio [camera]))
    as (_ & _ & Hopen).
  split.
  - apply Hlocked; reflexivity.
  - apply Hopen; [reflexivity | vm_compute; discriminate].
Defined.

Lemma manual_edit_never_completes_witness :
  exists job',
    activeVideo (manualEdit [vlog; podcast] finishedStudio) = Some job' /\
    progress job' < 100.
Proof.
  assert (Hd : 0 < duration vlog) by reflexivity.
  destruct (manual_edit_never_completes [vlog; podcast] finishedStudio
              (mkActiveVideo "vlog" 100 0) vlog eq_refl finished_vlog_listed Hd)
    as ((job' & Hjob' & _ & Hlt) & _).
  exists job'. split; [exact Hjob' | exact Hlt].
Defined.

(** ** Loading *)

(** C9 (as amended).  When nothing is stored, when the stored text is
    empty, or when [JSON.parse] rejects it, the initializer returns the
    literal ledger (views, subscribers, money and both totals 0, the
    upgrades of [INITIAL_UPGRADES], the single unlocked content id) and the
    first render goes through.  Stored text that parses is returned as the
    state as it is, with no check of its shape. *)
Theorem load_discards_only_unparsable
    (parse : string -> option JSON) (INITIAL_UPGRADES : list Upgrade)
    (saved : option string) (now : Z) :
  ((saved = None \/ saved = Some ""%string \/
    exists s, saved = Some s /\ parse s = None) ->
   exists g,
     initGameState JSON parse INITIAL_UPGRADES saved now = Fresh g /\
     views g = 0 /\ subscribers g = 0 /\ money g = 0 /\
     totalViews g = 0 /\ totalMoney g = 0 /\
     upgrades g = INITIAL_UPGRADES /\
     unlockedContentTypes g = ["vlog"%string] /\
     lastSaved g = now /\
     firstRender (initGameState JSON parse INITIAL_UPGRADES saved now) = Returns tt) /\
  (forall s v, saved = Some s -> s <> ""%string -> parse s = Some v ->
     initGameState JSON parse INITIAL_UPGRADES saved now = Restored v).
Proof.
  split.
  - intros Hcase.
    assert (Hfresh : initGameState JSON parse INITIAL_UPGRADES saved now
                     = Fresh (freshGameState INITIAL_UPGRADES now)).
    { destruct Hcase as [-> | [-> | (s & -> & Hbad)]]; [reflexivity | reflexivity |].
      unfold initGameState. rewrite Hbad.
      destruct (String.eqb s ""); reflexivity. }
    exists (freshGameState INITIAL_UPGRADES now).
    rewrite Hfresh. repeat split.
  - intros s v -> Hne Hparse. unfold initGameState. rewrite Hparse.
    destruct (String.eqb s "") eqn:He; [|reflexivity].
    apply String.eqb_eq in He. contradiction.
Qed.

Lemma load_discards_only_unparsable_witness :
  exists g, initGameState JSON parseLiterals [camera] (Some "{views:"%string) 42 = Fresh g /\
            money g = 0 /\ unlockedContentTypes g = ["vlog"%string].
Proof.
  assert (Hcase : Some "{views:"%string = None \/
                  Some "{views:"%string = Some ""%string \/
                  exists s, Some "{views:"%string = Some s /\ parseLiterals s = None).
  { right. right. exists "{views:"%string. split; reflexivity. }
  destruct (load_discards_only_unparsable parseLiterals [camera]
              (Some "{views:"%string) 42) as (Hfall & _).
  destruct (Hfall Hcase) as (g & Hg & _ & _ & Hm & _ & _ & _ & Hunl & _).
  exists g. split; [exact Hg|]. split; [exact Hm | exact Hunl].
Defined.

(** C9 as first stated fails: the stored text [null] is well-formed JSON,
    so nothing is caught; the initializer hands [null] on as the game state
    and the first render throws on reading its [upgrades]. *)
Lemma load_keeps_corrupt_state :
  initGameState JSON parseLiterals [camera] (Some "null"%string) 42 = Restored JNull /\
  firstRender (initGameState JSON parseLiterals [camera] (Some "null"%string) 42)
    = ThrowsTypeError.
Proof. split; reflexivity. Qed.

(** ** Score endpoint *)





(** * Further properties of the session *)

Section Session.

Variable CONTENT_TYPES : list ContentType.

(** An invariant kept by every event is kept by every run. *)
Lemma run_invariant (P : Studio -> Prop) :
  (forall e st st', P st -> step CONTENT_TYPES e st = Returns st' -> P st') ->
  forall es st st', P st -> run CONTENT_TYPES es st = Returns st' -> P st'.
Proof.
  intros Hstep es. induction es as [|e es IH]; intros st st' HP Hrun.
  - cbn in Hrun. injection Hrun as <-. exact HP.
  - cbn [run] in Hrun.
    destruct (step CONTENT_TYPES e st) as [st1|] eqn:He; [|discriminate].
    exact (IH st1 st' (Hstep e st st1 HP He) Hrun).
Qed.

(** ** Notifications *)

Lemma step_notifications (e : Event) (st st' : Studio) :
  step CONTENT_TYPES e st = Returns st' -> notificationChange st st'.
Proof.
  intros Hstep. destruct e; cbn [step] in Hstep.
  - injection Hstep as <-. apply notifications_kept; reflexivity.
  - injection Hstep as <-. unfold productionTick.
    destruct (activeVideo st) as [job|]; [|apply notifications_kept; reflexivity].
    destruct (findContent CONTENT_TYPES (video_id job)) as [ct|];
      [|apply notifications_kept; reflexivity].
    destruct (Qle_bool 100 (progress job)).
    + eapply notification_added; reflexivity.
    + apply notifications_kept; reflexivity.
  - injection Hstep as <-. unfold checkViral.
    destruct (negb (isViral st) && negb (Qle_bool 0.01 rand));
      [|apply notifications_kept; reflexivity].
    eapply notification_added; unfold viralEffect;
      repeat (destruct (_ && _) || destruct (_ =? _)%Z); reflexivity.
  - injection Hstep as <-. unfold viralSecond, viralEffect.
    apply notifications_kept;
      repeat (destruct (_ && _) || destruct (_ =? _)%Z); reflexivity.
  - injection Hstep as <-. eapply notification_removed; reflexivity.
  - injection Hstep as <-. unfold manualEdit.
    apply notifications_kept;
      destruct (activeVideo st) as [job|]; try reflexivity;
      destruct (findContent CONTENT_TYPES (video_id job)); reflexivity.
  - injection Hstep as <-. unfold clickRecord, startVideo.
    apply notifications_kept;
      destruct (recordButton st t); try reflexivity;
      destruct (activeVideo st); reflexivity.
  - destruct (buyUpgrade upgradeId (gameState st)); [|discriminate].
    injection Hstep as <-. apply notifications_kept; reflexivity.
Qed.

Lemma filter_ids_sublist (keep : Notification -> bool) (ns : list Notification) :
  sublist (notification_id <$> List.filter keep ns) (notification_id <$> ns).
Proof.
  induction ns as [|n ns IH]; [constructor|].
  cbn [List.filter]. destruct (keep n); cbn [fmap list_fmap].
  - apply sublist_skip, IH.
  - apply sublist_cons, IH.
Qed.

Lemma notificationChange_fresh (st st' : Studio) :
  notificationChange st st' -> notificationsFresh st -> notificationsFresh st'.
Proof.
  intros Hchange [Hnodup Hbelow]. unfold notificationsFresh.
  destruct Hchange as [Hn Hi | txt Hn Hi | id Hn Hi]; rewrite Hn, Hi.
  - split; assumption.
  - split.
    + rewrite fmap_app. apply NoDup_app. split; [exact Hnodup|].
      split; [|apply NoDup_singleton].
      intros i Hin Hlast. cbn in Hlast. apply list_elem_of_singleton in Hlast.
      apply list_elem_of_fmap in Hin as (n & -> & Hn').
      rewrite Forall_forall in Hbelow. specialize (Hbelow n Hn'). lia.
    + apply Forall_app. split.
      * eapply Forall_impl; [exact Hbelow|]. cbn. intros n Hlt. lia.
      * constructor; [cbn; lia | constructor].
  - split.
    + eapply sublist_NoDup; [exact Hnodup | apply filter_ids_sublist].
    + rewrite Forall_forall in *. intros n Hin.
      apply Hbelow. apply list_elem_of_In in Hin. apply filter_In in Hin as [Hin _].
      apply list_elem_of_In, Hin.
Qed.

(** X1.  Whatever events occur, the notifications on screen keep pairwise
    distinct ids, all below the id the next one will get. *)
Theorem notification_ids_stay_distinct (es : list Event) (st st' : Studio) :
  notificationsFresh st -> run CONTENT_TYPES es st = Returns st' ->
  notificationsFresh st'.
Proof.
  apply (run_invariant notificationsFresh).
  intros e s s' Hfresh Hstep.
  exact (notificationChange_fresh s s' (step_notifications e s s' Hstep) Hfresh).
Qed.

Lemma filter_all_kept (keep : Notification -> bool) (ns : list Notification) :
  Forall (fun n => keep n = true) ns -> List.filter keep ns = ns.
Proof.
  induction 1 as [|n ns Hn _ IH]; [reflexivity|].
  cbn [List.filter]. rewrite Hn, IH. reflexivity.
Qed.

(** X2.  A notification's expiry takes that notification, and only it,
    off the list, wherever it stands: with pairwise distinct ids, the
    notifications before it and those added after it all stay, in their
    order; an id that is not on the list removes nothing; the id counter is
    never moved back. *)
Theorem notification_expiry_removes_only_its_own
    (id : nat) (st : Studio) :
  notificationsFresh st ->
  (forall txt before after,
     notifications st = before ++ mkNotification id txt :: after ->
     notifications (expireNotification id st) = before ++ after) /\
  (id ∉ notification_id <$> notifications st ->
   notifications (expireNotification id st) = notifications st) /\
  nextNotificationId (expireNotification id st) = nextNotificationId st.
Proof.
  intros [Hnodup _]. split; [|split; [|reflexivity]].
  - intros txt before after Hsplit.
    cbn [expireNotification notifications]. rewrite Hsplit in *.
    rewrite fmap_app in Hnodup. cbn [fmap list_fmap notification_id] in Hnodup.
    apply NoDup_app in Hnodup as (_ & Hcross & Hright).
    apply NoDup_cons in Hright as [Hnotin _].
    rewrite List.filter_app. cbn [List.filter notification_id].
    rewrite Nat.eqb_refl. cbn [negb].
    rewrite !filter_all_kept; [reflexivity | |].
    + apply Forall_forall. intros n Hn.
      apply negb_true_iff, Nat.eqb_neq. intros Heq.
      apply Hnotin. apply list_elem_of_fmap. exists n. split; [congruence | exact Hn].
    + apply Forall_forall. intros n Hn.
      apply negb_true_iff, Nat.eqb_neq. intros Heq.
      apply (Hcross id); [|apply list_elem_of_here].
      apply list_elem_of_fmap. exists n. split; [congruence | exact Hn].
  - intros Hnotin. cbn [expireNotification notifications].
    apply filter_all_kept. apply Forall_forall. intros n Hn.
    apply negb_true_iff, Nat.eqb_neq. intros Heq.
    apply Hnotin. apply list_elem_of_fmap. exists n. split; [congruence | exact Hn].
Qed.
(** ** The viral event *)

Lemma viralSecond_running (st : Studio) :
  isViral st = true -> (1 < viralTimer st)%Z ->
  viralSecond st = setViral st true (viralTimer st - 1).
Proof.
  intros Hv Ht. unfold viralSecond, viralEffect. rewrite Hv.
  cbn [andb setViral isViral viralTimer].
  destruct (Z.ltb_spec 0 (viralTimer st)); [|lia].
  destruct (Z.ltb_spec 0 (viralTimer st - 1)); [reflexivity | lia].
Qed.

Lemma viralSecond_last (st : Studio) :
  isViral st = true -> viralTimer st = 1%Z ->
  viralSecond st = setViral st false 0.
Proof.
  intros Hv Ht. unfold viralSecond, viralEffect. rewrite Hv, Ht. reflexivity.
Qed.

Lemma viralSecond_off (st : Studio) : isViral st = false -> viralSecond st = st.
Proof. intros Hv. unfold viralSecond. rewrite Hv. reflexivity. Qed.

Lemma checkViral_fires (rand : Q) (st : Studio) :
  isViral st = false -> rand < 0.01 ->
  checkViral rand st = addNotification ViralAlert (setViral st true 15).
Proof.
  intros Hv Hr. unfold checkViral. rewrite Hv.
  destruct (Qle_bool 0.01 rand) eqn:Hb.
  - apply Qle_bool_iff in Hb. lra.
  - reflexivity.
Qed.

Lemma checkViral_idle (rand : Q) (st : Studio) :
  isViral st = true \/ 0.01 <= rand -> checkViral rand st = st.
Proof.
  intros [Hv|Hr]; unfold checkViral.
  - rewrite Hv. reflexivity.
  - apply Qle_bool_iff in Hr. rewrite Hr. cbn [negb]. rewrite andb_false_r. reflexivity.
Qed.

Lemma step_viral (e : Event) (st st' : Studio) :
  step CONTENT_TYPES e st = Returns st' ->
  (isViral st' = isViral st /\ viralTimer st' = viralTimer st) \/
  (exists rand, st' = checkViral rand st) \/ st' = viralSecond st.
Proof.
  intros Hstep. destruct e; cbn [step] in Hstep.
  - injection Hstep as <-. left. split; reflexivity.
  - injection Hstep as <-. left. unfold productionTick.
    destruct (activeVideo st) as [job|]; [|split; reflexivity].
    destruct (findContent CONTENT_TYPES (video_id job)); [|split; reflexivity].
    destruct (Qle_bool 100 (progress job)); split; reflexivity.
  - injection Hstep as <-. right. left. eauto.
  - injection Hstep as <-. right. right. reflexivity.
  - injection Hstep as <-. left. split; reflexivity.
  - injection Hstep as <-. left. unfold manualEdit.
    destruct (activeVideo st) as [job|]; [|split; reflexivity].
    destruct (findContent CONTENT_TYPES (video_id job)); split; reflexivity.
  - injection Hstep as <-. left. unfold clickRecord, startVideo.
    destruct (recordButton st t); try (split; reflexivity).
    destruct (activeVideo st); split; reflexivity.
  - destruct (buyUpgrade upgradeId (gameState st)); [|discriminate].
    injection Hstep as <-. left. split; reflexivity.
Qed.

(** X3.  Whatever events occur, the viral flag is up exactly while seconds
    remain on its timer, and the timer never shows more than 15. *)
Theorem viral_flag_matches_timer (es : list Event) (st st' : Studio) :
  viralConsistent st -> run CONTENT_TYPES es st = Returns st' ->
  viralConsistent st'.
Proof.
  apply (run_invariant viralConsistent).
  intros e s s' Hs Hstep.
  destruct (step_viral e s s' Hstep) as [[Hv Ht] | [[rand ->] | ->]].
  - unfold viralConsistent. rewrite Hv, Ht. exact Hs.
  - destruct Hs as [[Hv Ht] | [Hv Ht]].
    + rewrite checkViral_idle by (left; exact Hv). left. split; assumption.
    + destruct (Qlt_le_dec rand 0.01) as [Hr|Hr].
      * rewrite (checkViral_fires rand s Hv Hr). left. cbn. split; [reflexivity | lia].
      * rewrite checkViral_idle by (right; exact Hr). right. split; assumption.
  - destruct Hs as [[Hv Ht] | [Hv Ht]].
    + destruct (Z.eq_dec (viralTimer s) 1%Z) as [H1|H1].
      * rewrite (viralSecond_last s Hv H1). right. split; reflexivity.
      * rewrite (viralSecond_running s Hv) by lia. left. cbn. split; [reflexivity | lia].
    + rewrite (viralSecond_off s Hv). right. split; assumption.
Qed.

Lemma viralSeconds_S (k : nat) (st : Studio) :
  viralSeconds (S k) st = viralSecond (viralSeconds k st).
Proof. reflexivity. Qed.

Lemma viralSeconds_add (a b : nat) (st : Studio) :
  viralSeconds (a + b) st = viralSeconds a (viralSeconds b st).
Proof. unfold viralSeconds. apply Nat.iter_add. Qed.

Lemma viralSeconds_off (k : nat) (st : Studio) :
  isViral st = false -> viralSeconds k st = st.
Proof.
  intros Hv. induction k as [|k IH]; [reflexivity|].
  rewrite viralSeconds_S, IH. apply viralSecond_off, Hv.
Qed.

Lemma countdown_running (st : Studio) (t k : nat) :
  isViral st = true -> viralTimer st = Z.of_nat (S t) -> (k <= t)%nat ->
  viralSeconds k st = setViral st true (Z.of_nat (S t) - Z.of_nat k).
Proof.
  intros Hv Ht. induction k as [|k IH]; intros Hk.
  - change (viralSeconds 0 st) with st. rewrite Z.sub_0_r, <- Ht, <- Hv.
    destruct st; reflexivity.
  - rewrite viralSeconds_S, IH by lia.
    rewrite viralSecond_running; cbn [setViral isViral viralTimer]; [|reflexivity|lia].
    f_equal. lia.
Qed.

(** X4.  A viral event lasts exactly fifteen countdown seconds: when the
    10 s check draws a number below 0.01 while no event is active it raises
    the flag with 15 on the timer (both setters land in one render) and
    posts one alert; each of the next 14
    seconds takes one off the timer with the flag still up; the 15th
    lowers the flag at 0; the countdown touches nothing but flag and
    timer. *)
Theorem viral_event_lasts_15_seconds (rand : Q) (st : Studio) :
  isViral st = false -> rand < 0.01 ->
  let fired := checkViral rand st in
  notifications fired =
    notifications st ++ [mkNotification (nextNotificationId st) ViralAlert] /\
  (forall k, (k < 15)%nat ->
     viralSeconds k fired = setViral fired true (15 - Z.of_nat k)) /\
  viralSeconds 15 fired = setViral fired false 0 /\
  (forall k, (15 <= k)%nat -> viralSeconds k fired = viralSeconds 15 fired).
Proof.
  intros Hv Hr. cbv zeta. rewrite (checkViral_fires rand st Hv Hr).
  set (fired := addNotification ViralAlert (setViral st true 15)).
  assert (Hrun : forall k, (k <= 14)%nat ->
            viralSeconds k fired = setViral fired true (15 - Z.of_nat k)).
  { intros k Hk. exact (countdown_running fired 14 k eq_refl eq_refl Hk). }
  assert (Hend : viralSeconds 15 fired = setViral fired false 0).
  { rewrite viralSeconds_S, Hrun by lia.
    rewrite viralSecond_last; reflexivity. }
  split; [reflexivity|]. split; [intros k Hk; apply Hrun; lia|].
  split; [exact Hend|].
  intros k Hk. replace k with ((k - 15) + 15)%nat by lia.
  rewrite viralSeconds_add, Hend. apply viralSeconds_off. reflexivity.
Qed.

(** ** The ledger across events *)

Lemma findContent_listed (id : string) (ct : ContentType) :
  findContent CONTENT_TYPES id = Some ct -> ct ∈ CONTENT_TYPES /\ content_id ct = id.
Proof.
  unfold findContent. intros Hfind.
  destruct (list_find _ CONTENT_TYPES) as [[i c]|] eqn:Hf; [|discriminate].
  cbn in Hfind. injection Hfind as ->.
  apply list_find_Some in Hf as (Hi & Hid & _).
  split; [eapply list_elem_of_lookup_2; eauto | exact Hid].
Qed.

(** What a returning [buyUpgrade] did. *)
Lemma buyUpgrade_outcome (upgradeId : string) (g g' : GameState) :
  buyUpgrade upgradeId g = Returns g' ->
  exists i u, upgrades g !! i = Some u /\
    (g' = g \/
     (inject_Z (upgradeCost u) <= money g /\
      g' = setMoneyUpgrades g (money g - inject_Z (upgradeCost u))
             (<[i := levelUp u]> (upgrades g)))).
Proof.
  unfold buyUpgrade. intros Hbuy.
  destruct (list_find _ (upgrades g)) as [[i u]|] eqn:Hf; [|discriminate].
  apply list_find_Some in Hf as (Hi & _ & _).
  exists i, u. split; [exact Hi|].
  destruct (Qle_bool _ _) eqn:Hb; injection Hbuy as <-.
  - right. split; [apply Qle_bool_iff, Hb | reflexivity].
  - left. reflexivity.
Qed.

Lemma step_ledger (e : Event) (st st' : Studio) :
  step CONTENT_TYPES e st = Returns st' -> ledgerChange CONTENT_TYPES st st'.
Proof.
  intros Hstep. destruct e; cbn [step] in Hstep.
  - injection Hstep as <-. apply ledger_passive. reflexivity.
  - injection Hstep as <-. unfold productionTick.
    destruct (activeVideo st) as [job|]; [|apply ledger_kept; reflexivity].
    destruct (findContent CONTENT_TYPES (video_id job)) as [ct|] eqn:Hct;
      [|apply ledger_kept; reflexivity].
    destruct (Qle_bool 100 (progress job)).
    + apply (ledger_credit _ _ _ ct); [apply (findContent_listed _ _ Hct) | reflexivity].
    + apply ledger_kept. reflexivity.
  - injection Hstep as <-. apply ledger_kept. unfold checkViral, viralEffect.
    repeat (destruct (_ && _) || destruct (_ =? _)%Z); reflexivity.
  - injection Hstep as <-. apply ledger_kept. unfold viralSecond, viralEffect.
    repeat (destruct (_ && _) || destruct (_ =? _)%Z); reflexivity.
  - injection Hstep as <-. apply ledger_kept. reflexivity.
  - injection Hstep as <-. apply ledger_kept. unfold manualEdit.
    destruct (activeVideo st) as [job|]; [|reflexivity].
    destruct (findContent CONTENT_TYPES (video_id job)); reflexivity.
  - injection Hstep as <-. apply ledger_kept. unfold clickRecord, startVideo.
    destruct (recordButton st t); try reflexivity.
    destruct (activeVideo st); reflexivity.
  - destruct (buyUpgrade upgradeId (gameState st)) as [g'|] eqn:Hbuy; [|discriminate].
    injection Hstep as <-. apply (ledger_purchase _ _ _ upgradeId). exact Hbuy.
Qed.

(** X7.  Views are a lifetime counter: whatever events occur, [views] and
    [totalViews] stay equal once they are (as in a new game), because every
    event adds the same amount to both and purchases touch neither. *)
Theorem views_equal_total_views (es : list Event) (st st' : Studio) :
  views (gameState st) == totalViews (gameState st) ->
  run CONTENT_TYPES es st = Returns st' ->
  views (gameState st') == totalViews (gameState st').
Proof.
  apply (run_invariant (fun s => views (gameState s) == totalViews (gameState s))).
  intros e s s' Heq Hstep.
  destruct (step_ledger e s s' Hstep) as [Hg | Hg | ct _ Hg | upgradeId Hbuy].
  - rewrite Hg. exact Heq.
  - rewrite Hg. cbn. rewrite Heq. reflexivity.
  - rewrite Hg. cbn. rewrite Heq. reflexivity.
  - destruct (buyUpgrade_outcome _ _ _ Hbuy) as (i & u & _ & [-> | [_ ->]]);
      [exact Heq | cbn; exact Heq].
Qed.

Lemma sumOfType_at_least (t : UpgradeType) (us : list Upgrade) (init : Q) :
  Forall upgradeSound us -> init <= sumOfType t init us.
Proof.
  intros Hsound. revert init. unfold sumOfType.
  induction Hsound as [|u us (_ & _ & Hv & Hl) _ IH]; intros init.
  - cbn. lra.
  - cbn [List.filter]. destruct (UpgradeType_eqb (type u) t); [|apply IH].
    cbn [fold_left]. eapply Qle_trans; [|apply IH].
    assert (0 <= value u * inject_Z (level u)).
    { apply Qmult_le_0_compat; [exact Hv|].
      change 0 with (inject_Z 0). rewrite <- Zle_Qle. exact Hl. }
    lra.
Qed.

Lemma upgradeCost_nonneg (u : Upgrade) : upgradeSound u -> (0 <= upgradeCost u)%Z.
Proof.
  intros (Hb & Hm & _ & _). unfold upgradeCost.
  change 0%Z with (Qfloor 0). apply Qfloor_resp_le.
  apply Qmult_le_0_compat; [exact Hb | apply Qpower_0_le, Hm].
Qed.

Lemma levelUp_sound (u : Upgrade) : upgradeSound u -> upgradeSound (levelUp u).
Proof.
  intros (Hb & Hm & Hv & Hl). repeat split; cbn; try assumption. lia.
Qed.

(** X8.  With no negative number in the content table or in the upgrades,
    whatever events occur money never goes below zero and never exceeds the
    money ever earned, and the upgrades keep non-negative levels. *)
Theorem money_stays_within_earnings (es : list Event) (st st' : Studio) :
  Forall contentSound CONTENT_TYPES ->
  ledgerSound st -> run CONTENT_TYPES es st = Returns st' -> ledgerSound st'.
Proof.
  intros Hcat. apply (run_invariant ledgerSound).
  intros e s s' (Hpos & Hle & Hups) Hstep. unfold ledgerSound.
  destruct (step_ledger e s s' Hstep) as [Hg | Hg | ct Hin Hg | upgradeId Hbuy].
  - rewrite Hg. auto.
  - rewrite Hg. cbn. auto.
  - rewrite Hg. cbn [creditProduction money totalMoney upgrades].
    rewrite Forall_forall in Hcat. destruct (Hcat ct Hin) as (_ & Hbm & _).
    assert (Hgain : 0 <= moneyGainedOf ct (gameState s) (isViral s)).
    { unfold moneyGainedOf. apply Qmult_le_0_compat.
      - apply Qmult_le_0_compat; [exact Hbm|].
        pose proof (sumOfType_at_least type_money _ 1 Hups) as H1.
        unfold getMoneyMultiplier. lra.
      - unfold boostOf. destruct (isViral s); lra. }
    repeat split; [lra | lra | exact Hups].
  - destruct (buyUpgrade_outcome _ _ _ Hbuy) as (i & u & Hi & [-> | [Hpay ->]]);
      [auto|].
    cbn [setMoneyUpgrades money totalMoney upgrades].
    assert (Hu : upgradeSound u).
    { rewrite Forall_forall in Hups. apply Hups.
      eapply list_elem_of_lookup_2; eauto. }
    pose proof (upgradeCost_nonneg u Hu) as Hc.
    assert (0 <= inject_Z (upgradeCost u)).
    { change 0 with (inject_Z 0). rewrite <- Zle_Qle. exact Hc. }
    repeat split; [lra | lra |].
    apply Forall_insert; [exact Hups | apply levelUp_sound, Hu].
Qed.

(** ** The job across events *)

Lemma step_job (e : Event) (st st' : Studio) :
  step CONTENT_TYPES e st = Returns st' -> jobChange CONTENT_TYPES st st'.
Proof.
  intros Hstep. destruct e; cbn [step] in Hstep.
  - injection Hstep as <-. apply job_kept. reflexivity.
  - injection Hstep as <-. apply job_ticked. reflexivity.
  - injection Hstep as <-. apply job_kept. unfold checkViral, viralEffect.
    repeat (destruct (_ && _) || destruct (_ =? _)%Z); reflexivity.
  - injection Hstep as <-. apply job_kept. unfold viralSecond, viralEffect.
    repeat (destruct (_ && _) || destruct (_ =? _)%Z); reflexivity.
  - injection Hstep as <-. apply job_kept. reflexivity.
  - injection Hstep as <-. apply job_edited. reflexivity.
  - injection Hstep as <-. unfold clickRecord, startVideo.
    destruct (recordButton st t); try (apply job_kept; reflexivity).
    destruct (activeVideo st) eqn:Hjob; [apply job_kept; reflexivity|].
    apply (job_started _ _ _ (content_id t) now); [exact Hjob | reflexivity].
  - destruct (buyUpgrade upgradeId (gameState st)); [|discriminate].
    injection Hstep as <-. apply job_kept. reflexivity.
Qed.

Lemma quotient_pos (a d : Q) : 0 < a -> 0 < d -> 0 < a / d * 100.
Proof.
  intros Ha Hd.
  assert (0 < a / d) by (apply Qlt_shift_div_l; [exact Hd | lra]).
  lra.
Qed.

(** X10.  With positive durations in the content table, whatever events
    occur the progress of the active job stays between 0 and 100: ticks and
    clicks only ever raise it from 0 and both are capped. *)
Theorem progress_stays_in_range (es : list Event) (st st' : Studio) :
  Forall contentSound CONTENT_TYPES ->
  progressInRange st -> run CONTENT_TYPES es st = Returns st' ->
  progressInRange st'.
Proof.
  intros Hcat. apply (run_invariant progressInRange).
  intros e s s' Hrange Hstep job' Hjob'.
  destruct (step_job e s s' Hstep) as [Hsame | -> | -> | id now _ Hnew].
  - apply Hrange. rewrite <- Hsame. exact Hjob'.
  - unfold productionTick in Hjob'.
    destruct (activeVideo s) as [job|] eqn:Hjob; [|congruence].
    specialize (Hrange job Hjob).
    destruct (findContent CONTENT_TYPES (video_id job)) as [ct|] eqn:Hct;
      [|rewrite Hjob in Hjob'; injection Hjob' as <-; exact Hrange].
    destruct (Qle_bool 100 (progress job)); [discriminate|].
    cbn in Hjob'. injection Hjob' as <-. cbn [withProgress progress].
    rewrite Forall_forall in Hcat.
    destruct (Hcat ct (proj1 (findContent_listed _ _ Hct))) as (_ & _ & Hd).
    pose proof (quotient_pos 0.1 (duration ct) eq_refl Hd) as Hinc.
    split; [apply Q.min_glb; lra | apply Q.le_min_r].
  - unfold manualEdit in Hjob'.
    destruct (activeVideo s) as [job|] eqn:Hjob; [|congruence].
    specialize (Hrange job Hjob).
    destruct (findContent CONTENT_TYPES (video_id job)) as [ct|] eqn:Hct;
      [|rewrite Hjob in Hjob'; injection Hjob' as <-; exact Hrange].
    cbn in Hjob'. injection Hjob' as <-. cbn [withProgress progress].
    rewrite Forall_forall in Hcat.
    destruct (Hcat ct (proj1 (findContent_listed _ _ Hct))) as (_ & _ & Hd).
    pose proof (quotient_pos 0.5 (duration ct) eq_refl Hd) as Hinc.
    pose proof (Q.le_min_r (progress job + 0.5 / duration ct * 100) 99.9).
    split; [apply Q.min_glb; lra | lra].
  - rewrite Hnew in Hjob'. injection Hjob' as <-. cbn. lra.
Qed.

(** X9.  A click on a job that has already reached 100 and only awaits the
    next tick sets its progress back to 99.9: the tick that would have
    published the video now merely advances it, crediting and announcing
    nothing. *)
Theorem click_on_finished_job_delays_it (st : Studio) (job : ActiveVideo) (ct : ContentType) :
  activeVideo st = Some job -> findContent CONTENT_TYPES (video_id job) = Some ct ->
  0 < duration ct -> 100 <= progress job ->
  activeVideo (productionTick CONTENT_TYPES st) = None /\
  (exists job', activeVideo (manualEdit CONTENT_TYPES st) = Some job' /\
     progress job' == 99.9) /\
  is_Some (activeVideo (productionTick CONTENT_TYPES (manualEdit CONTENT_TYPES st))) /\
  gameState (productionTick CONTENT_TYPES (manualEdit CONTENT_TYPES st)) = gameState st /\
  notifications (productionTick CONTENT_TYPES (manualEdit CONTENT_TYPES st))
    = notifications st.
Proof.
  intros Hjob Hct Hd Hfull.
  pose proof (quotient_pos 0.5 (duration ct) eq_refl Hd) as Hinc.
  split; [rewrite (productionTick_done _ st job ct Hjob Hct Hfull); reflexivity|].
  rewrite (manualEdit_job _ st job ct Hjob Hct).
  set (p := Qmin (progress job + 0.5 / duration ct * 100) 99.9).
  assert (Hp : p == 99.9) by (apply Q.min_r; lra).
  split; [eexists; split; [reflexivity | exact Hp]|].
  assert (Hlt : progress (withProgress job p) < 100) by (cbn; lra).
  rewrite (productionTick_running _
             (setActiveVideo st (Some (withProgress job p)))
             (withProgress job p) ct eq_refl Hct Hlt).
  cbn. split; [eauto|]. split; reflexivity.
Qed.

(** X12.  [startVideo] does not check that the id names a content type.
    A job started on an id missing from the table is stuck for good: no
    event, tick or click, ever changes or ends it, and since a job is active
    no other can be started. *)
Theorem job_on_unknown_content_is_stuck
    (id : string) (now : Z) (st : Studio) (es : list Event) (st' : Studio) :
  findContent CONTENT_TYPES id = None -> activeVideo st = None ->
  run CONTENT_TYPES es (startVideo id now st) = Returns st' ->
  activeVideo st' = Some (mkActiveVideo id 0 now).
Proof.
  intros Hmiss Hidle.
  apply (run_invariant (fun s => activeVideo s = Some (mkActiveVideo id 0 now))).
  - intros e s s' Hs Hstep.
    destruct (step_job e s s' Hstep) as [Hsame | -> | -> | id' now' Hnone _].
    + rewrite Hsame. exact Hs.
    + unfold productionTick. rewrite Hs. cbn [video_id]. rewrite Hmiss. exact Hs.
    + unfold manualEdit. rewrite Hs. cbn [video_id]. rewrite Hmiss. exact Hs.
    + congruence.
  - unfold startVideo. rewrite Hidle. reflexivity.
Qed.

(** ** What never goes down *)

Lemma yield_nonneg (ct : ContentType) (g : GameState) (viral : bool) :
  contentSound ct -> Forall upgradeSound (upgrades g) ->
  0 <= viewsGainedOf ct g viral /\ 0 <= moneyGainedOf ct g viral /\
  0 <= subsGainedOf ct g viral.
Proof.
  intros (Hbv & Hbm & _) Hups.
  pose proof (sumOfType_at_least type_views _ 0 Hups) as Hv.
  pose proof (sumOfType_at_least type_money _ 1 Hups) as Hm.
  assert (Hboost : 0 <= boostOf viral) by (destruct viral; cbn; lra).
  unfold viewsGainedOf, moneyGainedOf, subsGainedOf, getPassiveViews, getMoneyMultiplier.
  split; [|split].
  - repeat apply Qmult_le_0_compat; try assumption. lra.
  - repeat apply Qmult_le_0_compat; try assumption. lra.
  - apply Q.le_max_l.
Qed.

(** X22.  With no negative number in the content table or in the upgrades,
    nothing that happens makes total views, total money or subscribers go
    down. *)
Theorem lifetime_totals_never_decrease (es : list Event) (st st' : Studio) :
  Forall contentSound CONTENT_TYPES ->
  Forall upgradeSound (upgrades (gameState st)) ->
  run CONTENT_TYPES es st = Returns st' ->
  totalViews (gameState st) <= totalViews (gameState st') /\
  totalMoney (gameState st) <= totalMoney (gameState st') /\
  subscribers (gameState st) <= subscribers (gameState st').
Proof.
  intros Hcat Hups Hrun.
  set (P := fun s : Studio =>
    Forall upgradeSound (upgrades (gameState s)) /\
    totalViews (gameState st) <= totalViews (gameState s) /\
    totalMoney (gameState st) <= totalMoney (gameState s) /\
    subscribers (gameState st) <= subscribers (gameState s)).
  assert (Hend : P st').
  { apply (run_invariant P) with (es := es) (st := st); [|unfold P|exact Hrun].
    - clear Hrun. intros e s s' (Hs & Hv & Hm & Hsub) Hstep. unfold P.
      destruct (step_ledger e s s' Hstep) as [Hg | Hg | ct Hin Hg | upgradeId Hbuy].
      + rewrite Hg. auto.
      + rewrite Hg. cbn.
        pose proof (sumOfType_at_least type_views _ 0 Hs) as Hpv.
        pose proof (sumOfType_at_least type_subscribers _ 0 Hs) as Hps.
        unfold getPassiveViews, getPassiveSubs.
        assert (0 <= sumOfType type_views 0 (upgrades (gameState s)) / 10)
          by (apply Qle_shift_div_l; lra).
        assert (0 <= sumOfType type_subscribers 0 (upgrades (gameState s)) / 10)
          by (apply Qle_shift_div_l; lra).
        repeat split; [exact Hs | lra | lra | lra].
      + rewrite Hg. cbn [creditProduction totalViews totalMoney subscribers upgrades].
        rewrite Forall_forall in Hcat.
        destruct (yield_nonneg ct (gameState s) (isViral s) (Hcat ct Hin) Hs)
          as (Hyv & Hym & Hys).
        repeat split; [exact Hs | lra | lra | lra].
      + destruct (buyUpgrade_outcome _ _ _ Hbuy) as (i & u & Hi & [-> | [_ ->]]);
          [auto|].
        cbn [setMoneyUpgrades totalViews totalMoney subscribers upgrades].
        repeat split; try assumption.
        apply Forall_insert; [exact Hs|]. apply levelUp_sound.
        rewrite Forall_forall in Hs. apply Hs. eapply list_elem_of_lookup_2; eauto.
    - repeat split; [exact Hups | lra | lra | lra]. }
  destruct Hend as (_ & Hv & Hm & Hsub). auto.
Qed.

(** X23.  Upgrades are never lost or rewritten: whatever events occur, the
    list keeps its length, every position keeps its entry in all but the
    level, and no level goes down. *)
Theorem upgrades_only_gain_levels (es : list Event) (st st' : Studio) :
  run CONTENT_TYPES es st = Returns st' ->
  length (upgrades (gameState st')) = length (upgrades (gameState st)) /\
  forall k u, upgrades (gameState st) !! k = Some u ->
    exists u', upgrades (gameState st') !! k = Some u' /\
      sameButLevel u u' /\ (level u <= level u')%Z.
Proof.
  intros Hrun.
  set (P := fun s : Studio =>
    length (upgrades (gameState s)) = length (upgrades (gameState st)) /\
    forall k u, upgrades (gameState st) !! k = Some u ->
      exists u', upgrades (gameState s) !! k = Some u' /\
        sameButLevel u u' /\ (level u <= level u')%Z).
  apply (run_invariant P) with (es := es) (st := st); [| |exact Hrun].
  - clear Hrun. intros e s s' (Hlen & Hkeep) Hstep. unfold P.
    destruct (step_ledger e s s' Hstep) as [Hg | Hg | ct Hin Hg | upgradeId Hbuy];
      try (rewrite Hg; cbn; split; assumption).
    destruct (buyUpgrade_outcome _ _ _ Hbuy) as (i & u & Hi & [-> | [_ ->]]);
      [split; assumption|].
    cbn [setMoneyUpgrades upgrades]. split; [rewrite length_insert; exact Hlen|].
    intros k u0 Hk. destruct (Hkeep k u0 Hk) as (u1 & Hk1 & Hsame & Hle).
    destruct (Nat.eq_dec k i) as [->|Hne].
    + assert (u1 = u) by congruence. subst u1.
      exists (levelUp u). split.
      * apply list_lookup_insert_eq. eapply lookup_lt_Some; eauto.
      * split; [exact Hsame | cbn; lia].
    + exists u1. split; [|split; assumption].
      rewrite list_lookup_insert_ne by congruence. exact Hk1.
  - split; [reflexivity|]. intros k u Hk. exists u.
    split; [exact Hk|]. split; [repeat split | lia].
Qed.

End Session.

(** * Further properties of upgrades *)

Lemma sumOfType_app (t : UpgradeType) (init : Q) (a b : list Upgrade) :
  sumOfType t init (a ++ b) = sumOfType t (sumOfType t init a) b.
Proof. unfold sumOfType. rewrite List.filter_app, fold_left_app. reflexivity. Qed.

Lemma sumOfType_cons (t : UpgradeType) (init : Q) (u : Upgrade) (l : list Upgrade) :
  sumOfType t init (u :: l) =
    sumOfType t (if UpgradeType_eqb (type u) t
                 then init + value u * inject_Z (level u) else init) l.
Proof.
  unfold sumOfType. cbn [List.filter].
  destruct (UpgradeType_eqb (type u) t); reflexivity.
Qed.

Lemma sumOfType_shift (t : UpgradeType) (l : list Upgrade) (init : Q) :
  sumOfType t init l == init + sumOfType t 0 l.
Proof.
  revert init. induction l as [|u l IH]; intros init.
  - unfold sumOfType. cbn. ring.
  - rewrite !sumOfType_cons. destruct (UpgradeType_eqb (type u) t).
    + rewrite IH. rewrite (IH (0 + _)). ring.
    + apply IH.
Qed.

Lemma sumOfType_levelUp_other (t : UpgradeType) (init : Q) (us : list Upgrade)
    (i : nat) (u : Upgrade) :
  us !! i = Some u -> UpgradeType_eqb (type u) t = false ->
  sumOfType t init (<[i := levelUp u]> us) = sumOfType t init us.
Proof.
  intros Hi Hother.
  assert (Hlen : (i < length us)%nat) by (eapply lookup_lt_Some; eauto).
  rewrite (insert_take_drop us i (levelUp u) Hlen).
  rewrite <- (take_drop_middle us i u Hi) at 3.
  rewrite !sumOfType_app, !sumOfType_cons.
  cbn [levelUp type]. rewrite Hother. reflexivity.
Qed.

Lemma sumOfType_levelUp_own (t : UpgradeType) (init : Q) (us : list Upgrade)
    (i : nat) (u : Upgrade) :
  us !! i = Some u -> 0 <= value u ->
  sumOfType t init us <= sumOfType t init (<[i := levelUp u]> us).
Proof.
  intros Hi Hv.
  assert (Hlen : (i < length us)%nat) by (eapply lookup_lt_Some; eauto).
  rewrite (insert_take_drop us i (levelUp u) Hlen).
  rewrite <- (take_drop_middle us i u Hi) at 1.
  rewrite !sumOfType_app, !sumOfType_cons.
  set (before := sumOfType t init (take i us)).
  cbn [levelUp type value level].
  destruct (UpgradeType_eqb (type u) t); [|lra].
  rewrite sumOfType_shift.
  rewrite (sumOfType_shift t _ (before + value u * inject_Z (level u + 1))).
  rewrite inject_Z_plus. change (inject_Z 1) with 1.
  assert (0 <= value u * 1) by lra. lra.
Qed.

(** X6.  A successful purchase changes no rate but the one of the
    upgrade's own type: the two other rates (among passive views, passive
    subscribers and the money multiplier) come out identical, and with a
    non-negative [value] no rate goes down. *)
Theorem purchase_changes_only_own_rate (g : GameState) (upgradeId : string)
    (i : nat) (u : Upgrade) :
  list_find (fun x => upgrade_id x = upgradeId) (upgrades g) = Some (i, u) ->
  inject_Z (upgradeCost u) <= money g ->
  exists g', buyUpgrade upgradeId g = Returns g' /\
    (type u <> type_views -> getPassiveViews g' = getPassiveViews g) /\
    (type u <> type_subscribers -> getPassiveSubs g' = getPassiveSubs g) /\
    (type u <> type_money -> getMoneyMultiplier g' = getMoneyMultiplier g) /\
    (0 <= value u ->
     getPassiveViews g <= getPassiveViews g' /\
     getPassiveSubs g <= getPassiveSubs g' /\
     getMoneyMultiplier g <= getMoneyMultiplier g').
Proof.
  intros Hf Hpay. rewrite (buyUpgrade_found _ _ _ _ Hf).
  apply Qle_bool_iff in Hpay. rewrite Hpay.
  apply list_find_Some in Hf as (Hi & _ & _).
  eexists. split; [reflexivity|].
  unfold getPassiveViews, getPassiveSubs, getMoneyMultiplier.
  cbn [setMoneyUpgrades upgrades].
  repeat split.
  1-3: intros Hne; apply (sumOfType_levelUp_other _ _ _ _ _ Hi);
       destruct (type u); try reflexivity; contradiction.
  all: apply (sumOfType_levelUp_own _ _ _ _ _ Hi); assumption.
Qed.

Lemma camera_found :
  list_find (fun x => upgrade_id x = "camera"%string)
    (upgrades (withMoney (newGame [camera]) 25)) = Some (0%nat, camera).
Proof. reflexivity. Qed.

Lemma purchase_changes_only_own_rate_witness :
  exists g', buyUpgrade "camera" (withMoney (newGame [camera]) 25) = Returns g' /\
             getMoneyMultiplier g' = getMoneyMultiplier (withMoney (newGame [camera]) 25) /\
             getPassiveViews (withMoney (newGame [camera]) 25) <= getPassiveViews g'.
Proof.
  assert (Hpay : inject_Z (upgradeCost camera) <= money (withMoney (newGame [camera]) 25)).
  { vm_compute. discriminate. }
  assert (Hv : 0 <= value camera) by (vm_compute; discriminate).
  destruct (purchase_changes_only_own_rate _ _ _ _ camera_found Hpay)
    as (g' & Hbuy & _ & _ & Hm & Hup).
  exists g'. split; [exact Hbuy|]. split.
  - apply Hm. discriminate.
  - exact (proj1 (Hup Hv)).
Defined.

Lemma sumOfType_level0 (t : UpgradeType) (us : list Upgrade) (init : Q) :
  Forall (fun u => level u = 0%Z) us -> sumOfType t init us == init.
Proof.
  intros Hzero. revert init.
  induction Hzero as [|u us Hu _ IH]; intros init.
  - unfold sumOfType. cbn. reflexivity.
  - rewrite sumOfType_cons, Hu. destruct (UpgradeType_eqb (type u) t).
    + rewrite IH. change (inject_Z 0) with 0. ring.
    + apply IH.
Qed.

(** X13.  With every upgrade at level 0 (a new game) the passive rates
    are 0 and the money multiplier is 1, so an unboosted video pays exactly
    its base views and base money. *)
Theorem level_zero_pays_base_yield (g : GameState) (ct : ContentType) :
  Forall (fun u => level u = 0%Z) (upgrades g) ->
  getPassiveViews g == 0 /\ getPassiveSubs g == 0 /\ getMoneyMultiplier g == 1 /\
  viewsGainedOf ct g false == baseViews ct /\
  moneyGainedOf ct g false == baseMoney ct.
Proof.
  intros Hzero.
  pose proof (sumOfType_level0 type_views _ 0 Hzero) as Hv.
  pose proof (sumOfType_level0 type_subscribers _ 0 Hzero) as Hs.
  pose proof (sumOfType_level0 type_money _ 1 Hzero) as Hm.
  unfold viewsGainedOf, moneyGainedOf, boostOf.
  fold (getPassiveViews g) in Hv. fold (getPassiveSubs g) in Hs.
  fold (getMoneyMultiplier g) in Hm.
  repeat split; try assumption.
  - rewrite Hv. ring.
  - rewrite Hm. ring.
Qed.

Lemma level_zero_pays_base_yield_witness :
  viewsGainedOf vlog (newGame [camera]) false == 100.
Proof.
  assert (Hzero : Forall (fun u => level u = 0%Z) (upgrades (newGame [camera]))).
  { repeat constructor. }
  destruct (level_zero_pays_base_yield (newGame [camera]) vlog Hzero)
    as (_ & _ & _ & Hv & _).
  rewrite Hv. reflexivity.
Defined.

(** X11.  A press on the button of an upgrade in the list never throws:
    the id it passes is always found.  When the ids in the list are
    pairwise distinct, an enabled button buys its own row at the price it
    shows; a disabled one changes nothing. *)
Theorem upgrade_button_buys_its_row (g : GameState) (i : nat) (u : Upgrade) :
  upgrades g !! i = Some u ->
  (exists g', clickUpgrade u g = Returns g') /\
  (canAfford g u = false -> clickUpgrade u g = Returns g) /\
  (NoDup (upgrade_id <$> upgrades g) -> canAfford g u = true ->
   clickUpgrade u g =
     Returns (setMoneyUpgrades g (money g - inject_Z (upgradeCost u))
                (<[i := levelUp u]> (upgrades g)))).
Proof.
  intros Hi.
  assert (Hin : upgrade_id u ∈ upgrade_id <$> upgrades g).
  { apply list_elem_of_fmap. exists u. split; [reflexivity|].
    eapply list_elem_of_lookup_2; eauto. }
  destruct (known_upgrade_found _ _ Hin) as (j & u' & Hf).
  unfold clickUpgrade. split; [|split].
  - destruct (canAfford g u); [|eauto].
    rewrite (buyUpgrade_found _ _ _ _ Hf).
    destruct (Qle_bool _ _); eauto.
  - intros ->. reflexivity.
  - intros Hnodup Hcan. rewrite Hcan.
    apply list_find_Some in Hf as Hspec. destruct Hspec as (Hj & Hid & _).
    assert (Hij : j = i).
    { eapply (NoDup_lookup _ j i (upgrade_id u) Hnodup);
        rewrite list_lookup_fmap; [rewrite Hj | rewrite Hi]; cbn; congruence. }
    subst j. assert (u' = u) by congruence. subst u'.
    rewrite (buyUpgrade_found _ _ _ _ Hf).
    unfold canAfford in Hcan. rewrite Hcan. reflexivity.
Qed.

Lemma upgrade_button_buys_its_row_witness :
  exists g', clickUpgrade camera (withMoney (newGame [camera]) 25) = Returns g' /\
             money g' == 15.
Proof.
  assert (Hi : upgrades (withMoney (newGame [camera]) 25) !! 0%nat = Some camera)
    by reflexivity.
  assert (Hnodup : NoDup (upgrade_id <$> upgrades (withMoney (newGame [camera]) 25))).
  { apply NoDup_singleton. }
  destruct (upgrade_button_buys_its_row _ _ _ Hi) as (_ & _ & Hbuy).
  eexists. split; [apply Hbuy; [exact Hnodup | reflexivity]|].
  reflexivity.
Defined.

(** * The session properties on a sample run *)

Lemma new_studio_fresh : notificationsFresh (newStudio [camera]).
Proof. split; constructor. Qed.

Lemma new_studio_sound : ledgerSound (newStudio [camera]).
Proof.
  unfold ledgerSound. cbn. repeat split; try lra.
  repeat constructor; cbn; try lra. lia.
Qed.

Lemma sample_contents_sound : Forall contentSound [vlog; podcast].
Proof. repeat constructor; cbn; lra. Qed.

Lemma notification_ids_stay_distinct_witness :
  exists st', run [vlog; podcast] sampleEvents (newStudio [camera]) = Returns st' /\
              notificationsFresh st'.
Proof.
  destruct (run [vlog; podcast] sampleEvents (newStudio [camera])) as [s|] eqn:Hrun.
  - exists s. split; [reflexivity|].
    exact (notification_ids_stay_distinct _ _ _ _ new_studio_fresh Hrun).
  - vm_compute in Hrun. discriminate.
Defined.

Lemma three_notices_fresh :
  notificationsFresh
    (mkStudio (newGame [camera]) None
       [mkNotification 0 ViralAlert; mkNotification 1 (VideoPublished true 300);
        mkNotification 2 (VideoPublished false 100)] 3 false 0).
Proof.
  split.
  - apply NoDup_ListNoDup. repeat constructor; cbn; intuition discriminate.
  - repeat constructor.
Qed.

Lemma notification_expiry_removes_only_its_own_witness :
  notifications
    (expireNotification 1
       (mkStudio (newGame [camera]) None
          [mkNotification 0 ViralAlert; mkNotification 1 (VideoPublished true 300);
           mkNotification 2 (VideoPublished false 100)] 3 false 0))
  = [mkNotification 0 ViralAlert; mkNotification 2 (VideoPublished false 100)].
Proof.
  destruct (notification_expiry_removes_only_its_own 1 _ three_notices_fresh)
    as (Hcut & _).
  exact (Hcut (VideoPublished true 300) [mkNotification 0 ViralAlert]
           [mkNotification 2 (VideoPublished false 100)] eq_refl).
Defined.

Lemma viral_flag_matches_timer_witness :
  exists st', run [vlog; podcast] sampleEvents (newStudio [camera]) = Returns st' /\
              viralConsistent st'.
Proof.
  assert (Hinit : viralConsistent (newStudio [camera])).
  { right. split; reflexivity. }
  destruct (run [vlog; podcast] sampleEvents (newStudio [camera])) as [s|] eqn:Hrun.
  - exists s. split; [reflexivity|].
    exact (viral_flag_matches_timer _ _ _ _ Hinit Hrun).
  - vm_compute in Hrun. discriminate.
Defined.

Lemma viral_event_lasts_15_seconds_witness :
  isViral (viralSeconds 15 (checkViral 0.001 (newStudio [camera]))) = false /\
  isViral (viralSeconds 14 (checkViral 0.001 (newStudio [camera]))) = true.
Proof.
  assert (Hoff : isViral (newStudio [camera]) = false) by reflexivity.
  assert (Hdraw : 0.001 < 0.01) by reflexivity.
  destruct (viral_event_lasts_15_seconds 0.001 (newStudio [camera]) Hoff Hdraw)
    as (_ & Hrun & Hend & _).
  split.
  - rewrite Hend. reflexivity.
  - rewrite (Hrun 14%nat) by lia. reflexivity.
Defined.

Lemma views_equal_total_views_witness :
  exists st', run [vlog; podcast] sampleEvents (newStudio [camera]) = Returns st' /\
              views (gameState st') == totalViews (gameState st').
Proof.
  assert (Hinit : views (gameState (newStudio [camera]))
                  == totalViews (gameState (newStudio [camera]))) by reflexivity.
  destruct (run [vlog; podcast] sampleEvents (newStudio [camera])) as [s|] eqn:Hrun.
  - exists s. split; [reflexivity|].
    exact (views_equal_total_views _ _ _ _ Hinit Hrun).
  - vm_compute in Hrun. discriminate.
Defined.

Lemma money_stays_within_earnings_witness :
  exists st', run [vlog; podcast] sampleEvents (newStudio [camera]) = Returns st' /\
              ledgerSound st'.
Proof.
  destruct (run [vlog; podcast] sampleEvents (newStudio [camera])) as [s|] eqn:Hrun.
  - exists s. split; [reflexivity|].
    exact (money_stays_within_earnings _ _ _ _ sample_contents_sound
             new_studio_sound Hrun).
  - vm_compute in Hrun. discriminate.
Defined.

Lemma progress_stays_in_range_witness :
  exists st', run [vlog; podcast] sampleEvents (newStudio [camera]) = Returns st' /\
              progressInRange st'.
Proof.
  assert (Hinit : progressInRange (newStudio [camera])).
  { intros job Hjob. discriminate. }
  destruct (run [vlog; podcast] sampleEvents (newStudio [camera])) as [s|] eqn:Hrun.
  - exists s. split; [reflexivity|].
    exact (progress_stays_in_range _ _ _ _ sample_contents_sound Hinit Hrun).
  - vm_compute in Hrun. discriminate.
Defined.

Lemma click_on_finished_job_delays_it_witness :
  activeVideo (productionTick [vlog; podcast] finishedStudio) = None /\
  is_Some (activeVideo (productionTick [vlog; podcast]
                          (manualEdit [vlog; podcast] finishedStudio))).
Proof.
  assert (Hd : 0 < duration vlog) by reflexivity.
  assert (Hfull : 100 <= progress (mkActiveVideo "vlog" 100 0)).
  { vm_compute. discriminate. }
  destruct (click_on_finished_job_delays_it [vlog; podcast] finishedStudio
              (mkActiveVideo "vlog" 100 0) vlog eq_refl finished_vlog_listed Hd Hfull)
    as (Hdone & _ & Hstill & _).
  split; [exact Hdone | exact Hstill].
Defined.

Lemma job_on_unknown_content_is_stuck_witness :
  exists st',
    run [vlog; podcast] sampleEvents (startVideo "ghost" 3 (newStudio [camera]))
      = Returns st' /\
    activeVideo st' = Some (mkActiveVideo "ghost" 0 3).
Proof.
  assert (Hmiss : findContent [vlog; podcast] "ghost" = None) by reflexivity.
  assert (Hidle : activeVideo (newStudio [camera]) = None) by reflexivity.
  destruct (run [vlog; podcast] sampleEvents (startVideo "ghost" 3 (newStudio [camera])))
    as [s|] eqn:Hrun.
  - exists s. split; [reflexivity|].
    exact (job_on_unknown_content_is_stuck _ _ _ _ _ _ Hmiss Hidle Hrun).
  - vm_compute in Hrun. discriminate.
Defined.

(** * Further properties of the server *)

Module AccountFacts.
Import Server Accounts.

Lemma usernameTaken_spec (name : string) (db : list User) :
  usernameTaken name db = true <-> name ∈ username <$> db.
Proof.
  unfold usernameTaken. rewrite existsb_exists, list_elem_of_fmap. split.
  - intros (r & Hin & Heq). apply String.eqb_eq in Heq.
    exists r. split; [congruence | apply list_elem_of_In, Hin].
  - intros (r & -> & Hin). exists r.
    split; [apply list_elem_of_In, Hin | apply String.eqb_refl].
Qed.

Lemma ids_below_next (db : list User) (i : Z) :
  i ∈ id <$> db -> (i < nextRowid db)%Z.
Proof.
  unfold nextRowid. induction db as [|r db IH]; cbn [fmap list_fmap foldr].
  - intros Hin. apply elem_of_nil in Hin. contradiction.
  - intros Hin. apply elem_of_cons in Hin as [-> | Hin].
    + fold (id <$> db). lia.
    + specialize (IH Hin). fold (id <$> db) in *. lia.
Qed.

Lemma find_app_miss (p : User -> bool) (l1 l2 : list User) :
  (forall r, r ∈ l1 -> p r = false) -> List.find p (l1 ++ l2) = List.find p l2.
Proof.
  induction l1 as [|r l1 IH]; intros Hmiss; [reflexivity|].
  cbn [app List.find]. rewrite (Hmiss r) by apply list_elem_of_here.
  apply IH. intros r' Hin. apply Hmiss. apply list_elem_of_further, Hin.
Qed.

(** X14.  Registration answers 200 exactly when it adds a row.  With both
    fields present and the name free it appends one row with 0 subscribers
    and 0 views under an id larger than every id in the table, and answers
    with that id; with the name taken it answers 400 and with a field
    missing 500, the table unchanged in both cases. *)
Theorem register_adds_row_or_fails (username password : option string) (now : Z)
    (db : list User) :
  (forall name pw, username = Some name -> password = Some pw ->
     name ∉ Server.username <$> db ->
     register username password now db =
       (db ++ [mkUser (nextRowid db) name pw 0 0 now],
        mkAuthResponse 200 (Account (nextRowid db) name 0)) /\
     (forall i, i ∈ id <$> db -> (i < nextRowid db)%Z)) /\
  (forall name pw, username = Some name -> password = Some pw ->
     name ∈ Server.username <$> db ->
     register username password now db =
       (db, mkAuthResponse 400 (Failure "Username already taken"))) /\
  (username = None \/ password = None ->
     register username password now db =
       (db, mkAuthResponse 500 (Failure "Internal server error"))) /\
  (auth_status (snd (register username password now db)) = 200%nat <->
   fst (register username password now db) <> db).
Proof.
  split; [|split; [|split]].
  - intros name pw -> -> Hfree. split; [|apply ids_below_next].
    unfold register.
    destruct (usernameTaken name db) eqn:Ht; [|reflexivity].
    apply usernameTaken_spec in Ht. contradiction.
  - intros name pw -> -> Htaken. unfold register.
    apply usernameTaken_spec in Htaken. rewrite Htaken. reflexivity.
  - intros [-> | ->]; [reflexivity|]. destruct username; reflexivity.
  - unfold register.
    destruct username as [name|], password as [pw|]; cbn [fst snd auth_status];
      try (split; [discriminate | congruence]).
    destruct (usernameTaken name db); cbn [fst snd auth_status].
    + split; [discriminate | congruence].
    + split; [|reflexivity]. intros _ Heq.
      apply (f_equal length) in Heq. rewrite length_app in Heq. cbn in Heq. lia.
Qed.

Lemma register_adds_row_or_fails_witness :
  register (Some "cy"%string) (Some "pw"%string) 5 sampleUsers =
    (sampleUsers ++ [mkUser 3 "cy" "pw" 0 0 5],
     mkAuthResponse 200 (Account 3 "cy" 0)).
Proof.
  destruct (register_adds_row_or_fails (Some "cy"%string) (Some "pw"%string) 5 sampleUsers)
    as (Hnew & _).
  apply (Hnew "cy"%string "pw"%string eq_refl eq_refl).
  intros Hin. vm_compute in Hin.
  repeat (apply elem_of_cons in Hin as [Hin | Hin]; [discriminate|]).
  apply elem_of_nil in Hin. exact Hin.
Defined.

(** X15.  The table keeps pairwise distinct usernames and pairwise distinct
    ids through every registration, whatever its outcome. *)
Theorem registration_keeps_accounts_distinct
    (username password : option string) (now : Z) (db : list User) :
  NoDup (Server.username <$> db) -> NoDup (id <$> db) ->
  NoDup (Server.username <$> fst (register username password now db)) /\
  NoDup (id <$> fst (register username password now db)).
Proof.
  intros Hnames Hids. unfold register.
  destruct username as [name|], password as [pw|]; cbn [fst]; try (split; assumption).
  destruct (usernameTaken name db) eqn:Ht; cbn [fst]; [split; assumption|].
  rewrite !fmap_app. cbn [fmap list_fmap Server.username id].
  split; apply NoDup_app.
  - split; [exact Hnames|]. split; [|apply NoDup_singleton].
    intros n Hn Hlast. apply list_elem_of_singleton in Hlast as ->.
    apply usernameTaken_spec in Hn. congruence.
  - split; [exact Hids|]. split; [|apply NoDup_singleton].
    intros i Hi Hlast. apply list_elem_of_singleton in Hlast as ->.
    apply ids_below_next in Hi. lia.
Qed.

Lemma sampleUsers_distinct :
  NoDup (username <$> sampleUsers) /\ NoDup (id <$> sampleUsers).
Proof.
  split; apply NoDup_ListNoDup; repeat constructor; cbn; intuition discriminate.
Qed.

Lemma registration_keeps_accounts_distinct_witness :
  NoDup (username <$> fst (register (Some "cy"%string) (Some "pw"%string) 5 sampleUsers)).
Proof.
  exact (proj1 (registration_keeps_accounts_distinct (Some "cy"%string)
                  (Some "pw"%string) 5 sampleUsers
                  (proj1 sampleUsers_distinct) (proj2 sampleUsers_distinct))).
Defined.

(** X16.  A fresh account can log in at once: after a registration that
    succeeds, a login with the same name and password answers 200 with the
    very account the registration returned. *)
Theorem register_then_login (name pw : string) (now : Z) (db : list User) :
  name ∉ username <$> db ->
  login name pw (fst (register (Some name) (Some pw) now db)) =
    snd (register (Some name) (Some pw) now db) /\
  login name pw (fst (register (Some name) (Some pw) now db)) =
    mkAuthResponse 200 (Account (nextRowid db) name 0).
Proof.
  intros Hfree. unfold register.
  destruct (usernameTaken name db) eqn:Ht.
  { apply usernameTaken_spec in Ht. contradiction. }
  cbn [fst snd]. unfold login.
  rewrite find_app_miss.
  - cbn [List.find Server.username Server.password].
    rewrite !String.eqb_refl. cbn. split; reflexivity.
  - intros r Hin.
    destruct (String.eqb (Server.username r) name) eqn:Hn; [|reflexivity].
    apply String.eqb_eq in Hn. exfalso. apply Hfree.
    apply list_elem_of_fmap. exists r. split; [congruence | exact Hin].
Qed.

Lemma register_then_login_witness :
  login "cy" "pw" (fst (register (Some "cy"%string) (Some "pw"%string) 5 sampleUsers)) =
    mkAuthResponse 200 (Account 3 "cy" 0).
Proof.
  assert (Hfree : "cy"%string ∉ username <$> sampleUsers).
  { intros Hin. vm_compute in Hin.
    repeat (apply elem_of_cons in Hin as [Hin | Hin]; [discriminate|]).
    apply elem_of_nil in Hin. exact Hin. }
  exact (proj2 (register_then_login "cy" "pw" 5 sampleUsers Hfree)).
Defined.
Lemma login_match_spec (name pw : string) (r : User) :
  String.eqb (username r) name && String.eqb (password r) pw = true <->
  username r = name /\ password r = pw.
Proof. rewrite andb_true_iff, !String.eqb_eq. reflexivity. Qed.

(** X17.  Login answers 200 exactly when some row carries both the given
    name and the given password, and then reports the id, name and
    subscribers of such a row; otherwise it answers 401 with
    [Invalid credentials]. *)
Theorem login_succeeds_iff_credentials_match (name pw : string) (db : list User) :
  (auth_status (login name pw db) = 200%nat <->
   exists r, r ∈ db /\ username r = name /\ password r = pw) /\
  (forall i n s, auth_payload (login name pw db) = Account i n s ->
     n = name /\
     exists r, r ∈ db /\ username r = name /\ password r = pw /\
               id r = i /\ subscribers r = s) /\
  ((forall r, r ∈ db -> ~ (username r = name /\ password r = pw)) ->
   login name pw db = mkAuthResponse 401 (Failure "Invalid credentials")).
Proof.
  unfold login.
  destruct (List.find _ db) as [r|] eqn:Hfind.
  - apply find_some in Hfind as [Hin Hmatch].
    apply login_match_spec in Hmatch as [Hn Hp]. apply list_elem_of_In in Hin.
    cbn [auth_status auth_payload]. split; [|split].
    + split; [eauto | reflexivity].
    + intros i n s Heq. injection Heq as <- <- <-. split; [exact Hn|]. eauto 10.
    + intros Hnone. exfalso. apply (Hnone r Hin). split; assumption.
  - pose proof (find_none _ _ Hfind) as Hnone.
    cbn [auth_status auth_payload]. split; [|split].
    + split; [discriminate|]. intros (r & Hin & Hn & Hp). exfalso.
      apply list_elem_of_In in Hin. specialize (Hnone r Hin).
      assert (Ht : String.eqb (username r) name && String.eqb (password r) pw = true)
        by (apply login_match_spec; split; assumption).
      congruence.
    + discriminate.
    + reflexivity.
Qed.

Lemma find_updateScore (p : User -> bool) (subs vws userId : Q) (db : list User) :
  (forall r s v, p (mkUser (id r) (username r) (password r) s v (created_at r)) = p r) ->
  List.find p (updateScore subs vws userId db) =
    (fun r => if Qeq_bool (inject_Z (id r)) userId
              then mkUser (id r) (username r) (password r) subs vws (created_at r)
              else r) <$> List.find p db.
Proof.
  intros Hp. unfold updateScore. induction db as [|r db IH]; [reflexivity|].
  cbn [List.map List.find].
  destruct (Qeq_bool (inject_Z (id r)) userId) eqn:Hid.
  - rewrite Hp. destruct (p r); [cbn; rewrite Hid; reflexivity | exact IH].
  - destruct (p r); [cbn; rewrite Hid; reflexivity | exact IH].
Qed.

(** X18.  A score update shows at the next login and never locks anyone
    out: a login that succeeded before still succeeds with the same id and
    name, reporting the submitted subscribers when the update named that
    account's id and the old figure otherwise. *)
Theorem score_update_shows_at_login (body : ScoreBody) (name pw : string)
    (db : list User) (i : Z) (n : string) (s : Q) :
  login name pw db = mkAuthResponse 200 (Account i n s) ->
  login name pw (fst (scoreUpdate body db)) =
    mkAuthResponse 200
      (Account i n (if Qeq_bool (inject_Z i) (body_userId body)
                    then body_subscribers body else s)).
Proof.
  unfold login, scoreUpdate. cbn [fst]. intros Hlogin.
  rewrite find_updateScore by reflexivity.
  destruct (List.find _ db) as [r|]; [|discriminate].
  injection Hlogin as <- <- <-. cbn [fmap option_fmap option_map].
  destruct (Qeq_bool (inject_Z (id r)) (body_userId body)); reflexivity.
Qed.

Lemma score_update_shows_at_login_witness :
  login "bob" "pw" (fst (scoreUpdate (mkScoreBody 2 95 1000) sampleUsers)) =
    mkAuthResponse 200 (Account 2 "bob" 95).
Proof.
  assert (Hbefore : login "bob" "pw" sampleUsers = mkAuthResponse 200 (Account 2 "bob" 80))
    by reflexivity.
  exact (score_update_shows_at_login (mkScoreBody 2 95 1000) "bob" "pw" sampleUsers
           2 "bob" 80 Hbefore).
Defined.

(** X19.  A score update rewrites only the two score columns: ids,
    usernames, passwords and creation times of all rows, and the number of
    rows, are as before; a row whose id differs from the given one is
    untouched, and a row that carries it gets the two submitted figures. *)
Theorem score_update_touches_scores_only (body : ScoreBody) (db : list User) :
  let db' := fst (scoreUpdate body db) in
  id <$> db' = id <$> db /\
  username <$> db' = username <$> db /\
  password <$> db' = password <$> db /\
  created_at <$> db' = created_at <$> db /\
  (forall k r, db !! k = Some r ->
     db' !! k = Some (if Qeq_bool (inject_Z (id r)) (body_userId body)
                      then mkUser (id r) (username r) (password r)
                             (body_subscribers body) (body_views body) (created_at r)
                      else r)).
Proof.
  cbv zeta. unfold scoreUpdate, updateScore. cbn [fst].
  repeat split.
  1-4: induction db as [|r db IH]; [reflexivity|];
       cbn [List.map fmap list_fmap]; f_equal;
       [destruct (Qeq_bool _ _); reflexivity | exact IH].
  intros k r Hk.
  change (List.map ?f db) with (f <$> db).
  rewrite list_lookup_fmap, Hk. reflexivity.
Qed.

#[local] Instance moreSubs_total : Total moreSubs.
Proof.
  intros u v. unfold moreSubs.
  destruct (Qlt_le_dec (subscribers u) (subscribers v)) as [Hlt|Hle];
    [right; apply Qlt_le_weak, Hlt | left; exact Hle].
Qed.

#[local] Instance moreSubs_trans : Transitive moreSubs.
Proof. intros u v w Huv Hvw. unfold moreSubs in *. lra. Qed.

(** X20.  The leaderboard shows the ten best rows, or all of them when
    there are fewer: the table splits, as a reordering, into the rows shown
    and the rows left out, so that every row is shown as often as it occurs
    or is left out; the board lists name and subscribers of the rows shown,
    which number the smaller of 10 and the row count and stand highest
    first; no row left out has more subscribers than a row shown; and with
    at most ten rows none is left out. *)
Theorem leaderboard_is_top_ten (db : list User) :
  exists shown rest : list User,
    db ≡ₚ shown ++ rest /\
    leaderboard db = (fun r => (username r, subscribers r)) <$> shown /\
    length shown = Nat.min 10 (length db) /\
    StronglySorted (fun a b => subscribers b <= subscribers a) shown /\
    (forall x y, x ∈ shown -> y ∈ rest -> subscribers y <= subscribers x) /\
    ((length db <= 10)%nat -> rest = []).
Proof.
  pose proof (merge_sort_Permutation moreSubs db) as Hperm.
  pose proof (StronglySorted_merge_sort moreSubs db) as Hsorted.
  exists (take 10 (merge_sort moreSubs db)), (drop 10 (merge_sort moreSubs db)).
  set (ranked := merge_sort moreSubs db) in *.
  rewrite <- (take_drop 10 ranked) in Hsorted.
  split; [rewrite take_drop; symmetry; exact Hperm|].
  split; [reflexivity|].
  split; [rewrite length_take, (Permutation_length Hperm); reflexivity|].
  split; [exact (StronglySorted_app_1_l _ _ _ Hsorted)|].
  split.
  - intros x y Hx Hy.
    exact (StronglySorted_app_1_elem_of _ _ _ _ _ Hsorted Hx Hy).
  - intros Hfew. apply drop_ge. rewrite (Permutation_length Hperm). exact Hfew.
Qed.

Lemma leaderboard_is_top_ten_witness :
  leaderboard manyUsers =
    [("u11"%string, 100); ("u03"%string, 90); ("u09"%string, 80);
     ("u05"%string, 70); ("u12"%string, 65); ("u07"%string, 60);
     ("u10"%string, 50); ("u01"%string, 40); ("u08"%string, 30);
     ("u04"%string, 20)] /\
  exists shown rest : list User,
    manyUsers ≡ₚ shown ++ rest /\
    leaderboard manyUsers = (fun r => (username r, subscribers r)) <$> shown /\
    length shown = 10%nat /\ length rest = 2%nat.
Proof.
  split; [vm_compute; reflexivity|].
  destruct (leaderboard_is_top_ten manyUsers)
    as (shown & rest & Hperm & Hboard & Hlen & _).
  exists shown, rest. split; [exact Hperm|]. split; [exact Hboard|].
  split; [exact Hlen|].
  apply Permutation_length in Hperm. rewrite length_app, Hlen in Hperm.
  cbn in Hperm. lia.
Defined.

Lemma login_succeeds_iff_credentials_match_witness :
  login "ann" "pw" sampleUsers = mkAuthResponse 200 (Account 1 "ann" 10) /\
  login "ann" "guess" sampleUsers = mkAuthResponse 401 (Failure "Invalid credentials").
Proof.
  split; [reflexivity|].
  destruct (login_succeeds_iff_credentials_match "ann" "guess" sampleUsers)
    as (_ & _ & Hfail).
  apply Hfail. intros r Hin [_ Hpw]. vm_compute in Hin.
  repeat (apply elem_of_cons in Hin as [-> | Hin]; [discriminate|]).
  apply elem_of_nil in Hin. exact Hin.
Defined.

Lemma score_update_touches_scores_only_witness :
  fst (scoreUpdate (mkScoreBody 2 95 1000) sampleUsers) !! 0%nat
    = Some (mkUser 1 "ann" "pw" 10 200 0) /\
  fst (scoreUpdate (mkScoreBody 2 95 1000) sampleUsers) !! 1%nat
    = Some (mkUser 2 "bob" "pw" 95 1000 0).
Proof.
  destruct (score_update_touches_scores_only (mkScoreBody 2 95 1000) sampleUsers)
    as (_ & _ & _ & _ & Hrows).
  split.
  - exact (Hrows 0%nat (mkUser 1 "ann" "pw" 10 200 0) eq_refl).
  - exact (Hrows 1%nat (mkUser 2 "bob" "pw" 80 900 0) eq_refl).
Defined.

End AccountFacts.

(** * More of the session on the sample data *)

Lemma lifetime_totals_never_decrease_witness :
  exists st', run [vlog; podcast] sampleEvents (newStudio [camera]) = Returns st' /\
              totalViews (gameState (newStudio [camera])) <= totalViews (gameState st').
Proof.
  destruct (run [vlog; podcast] sampleEvents (newStudio [camera])) as [s|] eqn:Hrun.
  - exists s. split; [reflexivity|].
    exact (proj1 (lifetime_totals_never_decrease _ _ _ _ sample_contents_sound
                    (proj2 (proj2 new_studio_sound)) Hrun)).
  - vm_compute in Hrun. discriminate.
Defined.

Lemma upgrades_only_gain_levels_witness :
  exists st', run [vlog; podcast] sampleEvents (newStudio [camera]) = Returns st' /\
              length (upgrades (gameState st')) = 1%nat.
Proof.
  destruct (run [vlog; podcast] sampleEvents (newStudio [camera])) as [s|] eqn:Hrun.
  - exists s. split; [reflexivity|].
    exact (proj1 (upgrades_only_gain_levels _ _ _ _ Hrun)).
  - vm_compute in Hrun. discriminate.
Defined.
